(** * librarian: metadata normalisation, metadata wrapper and archive index

    A shallow embedding of [librarian/core/metadata.py] and of the tag and
    view-count operations of [librarian/core/backends/embedded/archive.py].

    The code base is Python 2: dictionaries are finite maps from strings to
    dynamically typed values, functions mutate the dictionary they are given,
    and failures are exceptions.  Dictionaries are [gmap string value],
    in-place mutation is explicit state passing, and a call that may raise
    returns a [result]. *)

From Stdlib Require Import ZArith Ascii String List Strings.Byte PrimFloat.
From stdpp Require Import base option list gmap strings fin_maps.

Open Scope string_scope.
Open Scope Z_scope.

Set Warnings "-register-all".

(** ** Python values *)

Record date := Date { year : Z; month : Z; day : Z }.

Record datetime := Datetime {
  dt_date : date;  (* what [datetime.date()] returns *)
  dt_hour : Z;
  dt_minute : Z;
  dt_second : Z
}.

(** The values a decoded JSON document or a database row can hold, and
    [datetime.date] objects, which the computed ['broadcast'] default stores
    in the dictionary.  Nested JSON objects keep their key/value pairs as
    parsed; the code never looks inside them. *)
Inductive value :=
| VNone
| VBool (b : bool)
| VInt (n : Z)
| VFloat (x : float)
| VStr (s : string)
| VList (items : list value)
| VDict (items : list (string * value))
| VDate (d : date).

Abbreviation dict := (gmap string value).

(** Truth value of an object, as tested by [if x:] and [x or y]. *)
Definition truthy (v : value) : bool :=
  match v with
  | VNone => false
  | VBool b => b
  | VInt n => negb (n =? 0)
  | VFloat x => negb (PrimFloat.eqb x PrimFloat.zero)
  | VStr s => negb (String.eqb s "")
  | VList items => negb (Nat.eqb (length items) 0)
  | VDict items => negb (Nat.eqb (length items) 0)
  | VDate _ => true
  end.

(** [v == s] for a string literal [s]. *)
Definition eq_str (v : value) (s : string) : bool :=
  match v with
  | VStr s' => String.eqb s' s
  | _ => false
  end.

(** [v in l] for a list [l] of string literals. *)
Definition in_strs (v : value) (l : list string) : bool :=
  existsb (eq_str v) l.

(** ** Exceptions *)

(** The exception classes the two modules raise, catch or let through.
    [MetadataError], [DecodeError] and [FormatError] are declared in
    metadata.py; the others are built in. *)
Inductive exc_class :=
| Exception
| KeyError
| IndexError
| TypeError
| AttributeError
| AssertionError
| ValueError
| UnicodeDecodeError
| EnvironmentError
| IOError
| OSError
| BadZipfile
| MetadataError
| DecodeError
| FormatError.

Global Instance exc_class_eq_dec : EqDecision exc_class.
Proof. solve_decision. Defined.

(** Direct base class.  In Python 2 [IOError] and [OSError] are sibling
    subclasses of [EnvironmentError]; neither is a subclass of the other. *)
Definition base_class (c : exc_class) : option exc_class :=
  match c with
  | Exception => None
  | UnicodeDecodeError => Some ValueError
  | IOError | OSError => Some EnvironmentError
  | DecodeError | FormatError => Some MetadataError
  | _ => Some Exception
  end.

(** [issubclass c d]; the hierarchy above has depth three. *)
Definition issubclass (c d : exc_class) : bool :=
  bool_decide (c = d)
  || match base_class c with
     | None => false
     | Some b =>
         bool_decide (b = d)
         || match base_class b with
            | None => false
            | Some b' => bool_decide (b' = d)
            end
     end.

Record exn := Exn { exn_class : exc_class; exn_msg : string }.

(** Does an [except] clause naming the classes [cs] catch [e]? *)
Definition catches (cs : list exc_class) (e : exn) : bool :=
  existsb (issubclass (exn_class e)) cs.

Inductive result (A : Type) :=
| Ok (a : A)
| Raise (e : exn).
Arguments Ok {A} a.
Arguments Raise {A} e.

(** ** Metadata normaliser (metadata.py, module level) *)

Module Metadata.

Definition RTL_LANGS : list string := ["ar"; "he"; "ur"; "yi"; "ji"; "iw"; "fa"].

Section Normalizer.

(** Library calls the normaliser makes.  [decode_utf8 b] is
    [str(b.decode('utf8'))], [json_loads] is [json.loads] on a document whose
    top level is an object, and [dateutil_parse] is [dateutil.parser.parse]. *)
Variable decode_utf8 : list byte -> result string.
Variable json_loads : string -> result dict.
Variable dateutil_parse : value -> result datetime.

(** [meta['timestamp']] raises [KeyError] when the key is missing. *)
Definition default_broadcast (key : string) (meta : dict) : result value :=
  match meta !! "timestamp" with
  | None => Raise (Exn KeyError "'timestamp'")
  | Some ts =>
      match dateutil_parse ts with
      | Ok dt => Ok (VDate (dt_date dt))
      | Raise e => Raise e
      end
  end.

(** A [default] entry is a plain value or a callable. *)
Inductive default_entry :=
| Static (v : value)
| Callable (f : string -> dict -> result value).

(** One entry of [META_SPECIFICATION]; a field is [None] where the source
    dictionary leaves the key out. *)
Record field_spec := FieldSpec {
  f_required : option bool;
  f_default : option default_entry;
  f_aliases : option (list string);
  f_auto : option bool
}.

Definition spec_required : field_spec := FieldSpec (Some true) None None None.
Definition spec_default (v : value) : field_spec :=
  FieldSpec None (Some (Static v)) None None.
Definition spec_auto : field_spec := FieldSpec None None None (Some true).

(** Entries in the order of the source text.  The order in which Python 2
    walks a dictionary is unspecified; no statement below depends on more
    than the set of entries, except where it says so. *)
Definition META_SPECIFICATION : list (string * field_spec) :=
  [ ("url", spec_required);
    ("title", spec_required);
    ("images", spec_default (VInt 0));
    ("timestamp", spec_required);
    ("keep_formatting", spec_default (VBool false));
    ("is_partner", spec_default (VBool false));
    ("is_sponsored", spec_default (VBool false));
    ("archive", spec_default (VStr "core"));
    ("publisher", FieldSpec None (Some (Static (VStr ""))) (Some ["partner"]) None);
    ("license", spec_required);
    ("language", spec_default (VStr ""));
    ("multipage", spec_default (VBool false));
    ("entry_point",
     FieldSpec None (Some (Static (VStr "index.html"))) (Some ["index"]) None);
    ("broadcast",
     FieldSpec (Some false) (Some (Callable default_broadcast)) None None);
    ("keywords", spec_default (VStr ""));
    ("md5", spec_auto);
    ("size", spec_auto);
    ("updated", spec_auto) ].

Definition spec_get {A} (field : field_spec -> option A) (dflt : A)
    (v : field_spec) : A :=
  default dflt (field v).

Definition STANDARD_FIELDS : list (string * field_spec) :=
  List.filter (fun kv => negb (spec_get f_auto false kv.2)) META_SPECIFICATION.

Definition REQUIRED_KEYS : list string :=
  (List.filter (fun kv => spec_get f_required false kv.2) META_SPECIFICATION).*1.

(** [STANDARD_FIELDS[key]]. *)
Fixpoint field_lookup (key : string) (fields : list (string * field_spec))
    : option field_spec :=
  match fields with
  | [] => None
  | (k, v) :: rest => if String.eqb k key then Some v else field_lookup key rest
  end.

Definition key_error {A} (key : string) : result A :=
  Raise (Exn KeyError ("'" +:+ key +:+ "'")).

Definition get_default_value (key : string) (meta : dict) : result value :=
  match field_lookup key STANDARD_FIELDS with
  | None => key_error key
  | Some v =>
      match f_default v with
      | Some (Callable f) => f key meta
      | Some (Static d) => Ok d
      | None => Ok VNone
      end
  end.

Definition get_aliases_for (key : string) : result (list string) :=
  match field_lookup key STANDARD_FIELDS with
  | None => key_error key
  | Some v => Ok (spec_get f_aliases [] v)
  end.

Definition is_required (key : string) : result bool :=
  match field_lookup key STANDARD_FIELDS with
  | None => key_error key
  | Some v => Ok (spec_get f_required false v)
  end.

(** [add_missing_keys] changes [meta] in place; the dictionary returned is
    [meta] as the call leaves it, also when a default raises half way. *)
Fixpoint add_missing_keys_from (keys : list string) (meta : dict)
    : dict * result unit :=
  match keys with
  | [] => (meta, Ok tt)
  | key :: rest =>
      match meta !! key with
      | Some _ => add_missing_keys_from rest meta
      | None =>
          match get_default_value key meta with
          | Ok v => add_missing_keys_from rest (<[key := v]> meta)
          | Raise e => (meta, Raise e)
          end
      end
  end.

Definition add_missing_keys (meta : dict) : dict * result unit :=
  add_missing_keys_from STANDARD_FIELDS.*1 meta.

(** The inner loop of [replace_aliases]: [meta[key] = meta.pop(alias)] for
    every alias found. *)
Definition pop_aliases (key : string) (aliases : list string) (meta : dict) : dict :=
  foldl (fun m alias =>
           match m !! alias with
           | Some v => <[key := v]> (delete alias m)
           | None => m
           end) meta aliases.

Definition replace_aliases_step (meta : dict) (key : string) : dict :=
  match meta !! key with
  | Some _ => meta
  | None =>
      match get_aliases_for key with
      | Ok aliases => pop_aliases key aliases meta
      | Raise _ => meta  (* unreachable: [key] comes from [STANDARD_FIELDS] *)
      end
  end.

Definition replace_aliases (meta : dict) : dict :=
  foldl replace_aliases_step meta STANDARD_FIELDS.*1.

(** [meta.keys()] is a list in Python 2, so deleting while walking it is
    fine. *)
Definition clean_keys (meta : dict) : dict :=
  let valid_keys := STANDARD_FIELDS.*1 in
  foldl (fun m key => if bool_decide (key ∈ valid_keys) then m else delete key m)
        meta (map_to_list meta).*1.

(** [FormatError("Mandatory key '%s' missing" % key)]. *)
Definition mandatory_key_missing (key : string) : exn :=
  Exn FormatError ("Mandatory key '" +:+ key +:+ "' missing").

(** The check for mandatory keys in [convert_json]: the first key (in
    iteration order) that is required and missing. *)
Fixpoint first_missing (keys : list string) (meta : dict) : result unit :=
  match keys with
  | [] => Ok tt
  | key :: rest =>
      match meta !! key with
      | Some _ => first_missing rest meta
      | None =>
          match is_required key with
          | Raise e => Raise e
          | Ok true => Raise (mandatory_key_missing key)
          | Ok false => first_missing rest meta
          end
      end
  end.

Definition convert_json (meta : list byte) : result dict :=
  match decode_utf8 meta with
  | Raise err =>
      if catches [UnicodeDecodeError] err
      then Raise (Exn DecodeError
                      ("Failed to decode metadata: '" +:+ exn_msg err +:+ "'"))
      else Raise err
  | Ok text =>
      match json_loads text with
      | Raise err =>
          if catches [ValueError] err
          then Raise (Exn DecodeError "Invalid JSON")
          else Raise err
      | Ok meta =>
          let meta := replace_aliases meta in
          match first_missing STANDARD_FIELDS.*1 meta with
          | Raise e => Raise e
          | Ok _ =>
              match add_missing_keys meta with
              | (meta, Ok _) => Ok meta
              | (_, Raise exc) =>
                  if catches [Exception] exc
                  then Raise (Exn DecodeError
                                  ("Failed to add default values: '"
                                   +:+ exn_msg exc +:+ "'"))
                  else Raise exc
              end
          end
      end
  end.

End Normalizer.

(** ** Path helpers ([os.path], POSIX flavour) *)

Section Paths.

Local Open Scope nat_scope.

(** Index of the last occurrence of [c] in [s], counting from [i]. *)
Fixpoint rfind_from (c : ascii) (s : list ascii) (i : nat) : option nat :=
  match s with
  | [] => None
  | x :: rest =>
      match rfind_from c rest (S i) with
      | Some j => Some j
      | None => if Ascii.eqb x c then Some i else None
      end
  end.

Definition rfind (c : ascii) (s : string) : option nat :=
  rfind_from c (list_ascii_of_string s) 0.

Definition string_drop (n : nat) (s : string) : string :=
  string_of_list_ascii (drop n (list_ascii_of_string s)).

Definition ends_with_slash (s : string) : bool :=
  match last (list_ascii_of_string s) with
  | Some c => Ascii.eqb c "/"
  | None => false
  end.

Definition starts_with_slash (s : string) : bool :=
  match s with
  | String c _ => Ascii.eqb c "/"
  | EmptyString => false
  end.

(** [os.path.join(a, b)]. *)
Definition path_join (a b : string) : string :=
  if starts_with_slash b then b
  else if String.eqb a "" || ends_with_slash a then a +:+ b
  else a +:+ "/" +:+ b.

(** [os.path.basename(p)]. *)
Definition basename (p : string) : string :=
  match rfind "/" p with
  | Some i => string_drop (S i) p
  | None => p
  end.

(** [os.path.splitext(p)[1]]: the text from the last dot on, when that dot
    comes after the last slash and after a character of the file name that
    is not a dot. *)
Definition splitext_ext (p : string) : string :=
  match rfind "." p with
  | None => ""
  | Some dot =>
      let start := match rfind "/" p with Some i => S i | None => 0 end in
      let stem := take (dot - start) (drop start (list_ascii_of_string p)) in
      if bool_decide (start <= dot) && existsb (fun c => negb (Ascii.eqb c ".")) stem
      then string_drop dot p
      else ""
  end.

Definition ascii_lower (c : ascii) : ascii :=
  let n := nat_of_ascii c in
  if (65 <=? n) && (n <=? 90) then ascii_of_nat (n + 32) else c.

(** [s.lower()] on ASCII letters. *)
Definition lower (s : string) : string :=
  string_of_list_ascii (map ascii_lower (list_ascii_of_string s)).

End Paths.

(** ** Metadata wrapper (class [Meta]) *)

Record Meta := MkMeta {
  meta : dict;               (* the wrapped record *)
  tags : gmap string Z;      (* tag name -> tag id, decoded from meta['tags'] *)
  _image : option string;
  cover_dir : string;
  zip_path : option string
}.

(** What the wrapper asks of the runtime and the file system.  [format_s] is
    ['%s' % v].  [glob_glob] is [glob.glob].  [open_zip path] is
    [open(path, 'rb')] followed by [zipfile.ZipFile(f)]: the exception either
    of them raises, or the members in [namelist()] order, each with what
    [z.open(name, 'r').read()] gives.  [write_file path content] is
    [open(path, 'wb')] followed by [f.write(content)]. *)
Record runtime := Runtime {
  format_s : value -> string;
  glob_glob : string -> list string;
  open_zip : string -> result (list (string * result (list byte)));
  write_file : string -> list byte -> result unit
}.

Definition IMAGE_EXTENSIONS : list string := [".png"; ".gif"; ".jpg"; ".jpeg"].

(** [self.meta.get(key)]. *)
Definition get (self : Meta) (key : string) : value :=
  default VNone (meta self !! key).

(** [self.<attr>] for a key of the record ([__getattr__]). *)
Definition getattr (self : Meta) (attr : string) : result value :=
  match meta self !! attr with
  | Some v => Ok v
  | None => Raise (Exn AttributeError
                       ("Attribute or key '" +:+ attr +:+ "' not found"))
  end.

Definition set_image (self : Meta) (img : option string) : Meta :=
  MkMeta (meta self) (tags self) img (cover_dir self) (zip_path self).

Definition set_tags (self : Meta) (t : gmap string Z) : Meta :=
  MkMeta (meta self) t (_image self) (cover_dir self) (zip_path self).

(** The double-quote character. *)
Definition dquote : string := String (ascii_of_nat 34) EmptyString.

Definition lang (self : Meta) : value := get self "language".

Definition rtl (self : Meta) : bool := in_strs (lang self) RTL_LANGS.

Definition i18n_attrs (self : Meta) : runtime -> string := fun rt =>
  let s := "" in
  let s := if truthy (lang self)
           then s +:+ " lang=" +:+ dquote +:+ format_s rt (lang self) +:+ dquote
           else s in
  if rtl self then s +:+ " dir=" +:+ dquote +:+ "rtl" +:+ dquote else s.

Definition label (self : Meta) : string :=
  if eq_str (get self "archive") "core" then "core"
  else if truthy (get self "is_sponsored") then "sponsored"
  else if truthy (get self "is_partner") then "partner"
  else "core".


Section Covers.

Variable rt : runtime.

Definition cache_cover (self : Meta) (ext : string) (content : list byte)
    : result string :=
  match getattr self "md5" with
  | Raise e => Raise e
  | Ok md5 =>
      let cover_path := path_join (cover_dir self) (format_s rt md5 +:+ ext) in
      match write_file rt cover_path content with
      | Raise e => Raise e
      | Ok _ => Ok (basename cover_path)
      end
  end.

(** The loop of [extract_image] over [z.namelist()]. *)
Fixpoint first_image (members : list (string * result (list byte)))
    : result (option string * option (list byte)) :=
  match members with
  | [] => Ok (None, None)
  | (name, data) :: rest =>
      let extension := lower (splitext_ext name) in
      if bool_decide (extension ∈ IMAGE_EXTENSIONS)
      then match data with
           | Ok content => Ok (Some extension, Some content)
           | Raise e => Raise e
           end
      else first_image rest
  end.

Definition extract_image (self : Meta)
    : result (option string * option (list byte)) :=
  match zip_path self with
  | None =>
      Raise (Exn TypeError "coercing to Unicode: need string or buffer, NoneType found")
  | Some path =>
      match open_zip rt path with
      | Raise e => Raise e
      | Ok members => first_image members
      end
  end.

Definition get_cover_path (self : Meta) : result (option string) :=
  match getattr self "md5" with
  | Raise e => Raise e
  | Ok md5 =>
      let cover_path := path_join (cover_dir self) (format_s rt md5 +:+ ".*") in
      match glob_glob rt cover_path with
      | g0 :: _ => Ok (Some (basename g0))
      | [] => Ok None  (* IndexError, caught *)
      end
  end.

Definition str_truthy (s : option string) : bool :=
  match s with
  | Some s => negb (String.eqb s "")
  | None => false
  end.

(** The [image] property.  It returns the wrapper as the call leaves it (the
    property assigns [self._image]) and the value returned or the exception
    raised.  [logging.error] has no effect here, but its argument [self.md5]
    is evaluated. *)
Definition image (self : Meta) : Meta * result (option string) :=
  match _image self with
  | Some img => (self, Ok (Some img))
  | None =>
      match get_cover_path self with
      | Raise e => (self, Raise e)
      | Ok cover =>
          if str_truthy cover then (set_image self cover, Ok cover)
          else if negb (str_truthy (zip_path self)) then (self, Ok None)
          else
            match extract_image self with
            | Raise e =>
                if catches [TypeError; OSError] e
                then match getattr self "md5" with
                     | Ok _ => (self, Ok None)
                     | Raise e' => (self, Raise e')
                     end
                else (self, Raise e)
            | Ok (Some extension, Some content) =>
                match cache_cover self extension content with
                | Ok name => (set_image self (Some name), Ok (Some name))
                | Raise e =>
                    if catches [OSError] e
                    then match getattr self "md5" with
                         | Ok _ => (self, Ok None)
                         | Raise e' => (self, Raise e')
                         end
                    else (self, Raise e)
                end
            | Ok _ => (self, Ok None)
            end
      end
  end.

End Covers.

(** *** Dictionary access ([__getitem__], [__setitem__], [__delitem__],
    [__contains__]) *)






End Metadata.

(** ** State and exceptions *)

(** A computation over a mutable state [S] that returns a value or raises;
    the state reached when an exception is raised is kept. *)
Definition St (S A : Type) : Type := S -> S * result A.

Definition ret {S A} (a : A) : St S A := fun s => (s, Ok a).

Definition raise {S A} (c : exc_class) (msg : string) : St S A :=
  fun s => (s, Raise (Exn c msg)).

Definition bind {S A B} (c : St S A) (k : A -> St S B) : St S B :=
  fun s =>
    match c s with
    | (s', Ok a) => k a s'
    | (s', Raise e) => (s', Raise e)
    end.

Notation "'let*' x ':=' c 'in' k" := (bind c (fun x => k))
  (at level 10, x name, c at level 100, k at level 200).

Definition gets {S A} (f : S -> A) : St S A := fun s => (s, Ok (f s)).

Definition modify {S} (f : S -> S) : St S unit := fun s => (f s, Ok tt).

(** ** Archive index (class [EmbeddedArchive]) *)

Module EmbeddedArchive.

(** A row of [zipballs], with the columns the modelled operations touch.  The
    [tags] column holds [json.dumps] of a name-to-id mapping; the row keeps
    the mapping itself. *)
Record zipball := Zipball {
  zb_md5 : string;
  zb_views : Z;
  zb_tags : gmap string Z
}.

Record tag_row := TagRow { tag_id : Z; name : string }.

Record tagging := Tagging { tg_tag_id : Z; tg_md5 : string }.

Global Instance tagging_eq_dec : EqDecision tagging.
Proof. solve_decision. Defined.

(** The statements the modelled operations send to the database. *)
Inductive statement :=
| Begin
| Commit
| Rollback
| UpdateViews (md5 : string)
    (* UPDATE zipballs SET views = views + 1 WHERE md5 = ? *)
| InsertTag (name : string)
    (* INSERT INTO tags (name) VALUES (:name) *)
| SelectTags (names : list string)
    (* SELECT * FROM tags WHERE name IN (??) *)
| InsertTagging (tag_id : Z) (md5 : string)
    (* INSERT INTO taggings (tag_id, md5) VALUES (:tag_id, :md5) *)
| UpdateTags (md5 : string) (tags : gmap string Z)
    (* UPDATE zipballs SET tags = :tags WHERE md5 = :md5 *)
| DeleteTaggings (md5 : string) (tag_ids : list Z).
    (* DELETE FROM taggings WHERE md5 = ? AND tag_id IN (??) *)

Record database := Database {
  zipballs : list zipball;
  tag_rows : list tag_row;
  taggings : list tagging;
  rowcount : Z;               (* [db.cursor.rowcount] *)
  executed : list statement   (* every statement sent so far, oldest first *)
}.

Definition str_in (s : string) (l : list string) : bool :=
  existsb (String.eqb s) l.

Definition count_md5 (md5 : string) (rows : list zipball) : Z :=
  Z.of_nat (length (List.filter (fun r => String.eqb (zb_md5 r) md5) rows)).

Definition bump_views (md5 : string) (r : zipball) : zipball :=
  if String.eqb (zb_md5 r) md5
  then Zipball (zb_md5 r) (zb_views r + 1) (zb_tags r)
  else r.

Definition store_tags (md5 : string) (t : gmap string Z) (r : zipball) : zipball :=
  if String.eqb (zb_md5 r) md5
  then Zipball (zb_md5 r) (zb_views r) t
  else r.

(** The id a new tag row gets: one more than the largest id in the table. *)
Definition next_tag_id (rows : list tag_row) : Z :=
  1 + foldr (fun r acc => Z.max (tag_id r) acc) 0 rows.

Definition has_tag (n : string) (rows : list tag_row) : bool :=
  existsb (fun r => String.eqb (name r) n) rows.

(** Modelled from the spec: the schema of the three tables and the database
    wrapper behind [self.db] are not among the sources.  An [UPDATE] or
    [DELETE] touches every row its [WHERE] clause selects and sets the row
    count to their number.  A tag is a name with a numeric id and is unique by
    name; inserting a name that exists leaves the table as it is (adding tags
    "ensures tag rows exist").  A tagging is an association of a tag id with a
    content md5; the table holds each pair once. *)
Definition effect (q : statement) (db : database) : database :=
  match q with
  | Begin | Commit | Rollback => db
  | UpdateViews md5 =>
      Database (map (bump_views md5) (zipballs db)) (tag_rows db) (taggings db)
               (count_md5 md5 (zipballs db)) (executed db)
  | InsertTag n =>
      if has_tag n (tag_rows db)
      then Database (zipballs db) (tag_rows db) (taggings db) 0 (executed db)
      else Database (zipballs db)
                    (tag_rows db ++ [TagRow (next_tag_id (tag_rows db)) n])
                    (taggings db) 1 (executed db)
  | SelectTags _ =>
      Database (zipballs db) (tag_rows db) (taggings db) (-1) (executed db)
  | InsertTagging i md5 =>
      if bool_decide (Tagging i md5 ∈ taggings db)
      then Database (zipballs db) (tag_rows db) (taggings db) 0 (executed db)
      else Database (zipballs db) (tag_rows db) (taggings db ++ [Tagging i md5])
                    1 (executed db)
  | UpdateTags md5 t =>
      Database (map (store_tags md5 t) (zipballs db)) (tag_rows db) (taggings db)
               (count_md5 md5 (zipballs db)) (executed db)
  | DeleteTaggings md5 ids =>
      let gone := fun g =>
        String.eqb (tg_md5 g) md5 && bool_decide (tg_tag_id g ∈ ids) in
      Database (zipballs db) (tag_rows db)
               (List.filter (fun g => negb (gone g)) (taggings db))
               (Z.of_nat (length (List.filter gone (taggings db)))) (executed db)
  end.

Definition record (q : statement) (db : database) : database :=
  Database (zipballs db) (tag_rows db) (taggings db) (rowcount db)
           (executed db ++ [q]).

(** The state of a call: the database behind [self.db] and the content
    record [meta] the caller passes in, which the tag operations change. *)
Abbreviation state := (database * Metadata.Meta)%type.

(** [self.db.query(q, ...)]. *)
Definition query {M} (q : statement) : St (database * M) unit :=
  modify (fun s => (record q (effect q s.1), s.2)).

(** [self.db.executemany(q, ...)]: one statement per parameter set. *)
Fixpoint executemany {M} (qs : list statement) : St (database * M) unit :=
  match qs with
  | [] => ret tt
  | q :: rest => let* _ := query q in executemany rest
  end.

(** The database after the statements [qs], sent one after the other. *)
Definition run_all (qs : list statement) (db : database) : database :=
  foldl (fun db q => record q (effect q db)) db qs.

(** [self.db.results] after a [SELECT] on [tags]. *)
Definition results {M} (names : list string) : St (database * M) (list tag_row) :=
  gets (fun s => List.filter (fun r => str_in (name r) names) (tag_rows s.1)).

(** Modelled from the spec: [with self.db.transaction()] commits when the
    block ends and rolls the tables back when the block raises ("commit on
    success, rollback on exception").  Assignments to Python objects made
    inside the block are not undone. *)
Definition transaction {M A} (body : St (database * M) A) : St (database * M) A :=
  fun s =>
    let db0 := s.1 in
    match body (record Begin db0, s.2) with
    | (s', Ok a) => ((record Commit s'.1, s'.2), Ok a)
    | (s', Raise e) =>
        ((record Rollback
            (Database (zipballs db0) (tag_rows db0) (taggings db0)
                      (rowcount s'.1) (executed s'.1)), s'.2),
         Raise e)
    end.

(** [add_view] has no [meta] argument; the second component of its state is
    not used. *)
Definition add_view (md5 : string) : St (database * unit) Z :=
  let* _ := query (UpdateViews md5) in
  let* n := gets (fun s => rowcount s.1) in
  if n =? 1 then ret n
  else raise AssertionError "Updated more than one row".

(** [meta.md5].  The md5 column is text; a record whose ['md5'] entry is
    neither missing nor a string is not a content record, and the model does
    not follow the database driver there. *)
Definition meta_md5 : St state string :=
  fun s =>
    match Metadata.getattr s.2 "md5" with
    | Ok (VStr h) => (s, Ok h)
    | Ok _ => (s, Raise (Exn TypeError "md5 is not a string"))
    | Raise e => (s, Raise e)
    end.

(** The generator [pairs], consumed by [executemany]: [meta.md5] is read for
    each id. *)
Fixpoint insert_taggings (ids : list Z) : St state unit :=
  match ids with
  | [] => ret tt
  | i :: rest =>
      let* md5 := meta_md5 in
      let* _ := query (InsertTagging i md5) in
      insert_taggings rest
  end.

(** [{t['name']: t['tag_id'] for t in tags}]. *)
Definition tags_dict (rows : list tag_row) : gmap string Z :=
  foldl (fun m t => <[name t := tag_id t]> m) ∅ rows.

Definition update_zipball_tags : St state unit :=
  let* md5 := meta_md5 in
  let* t := gets (fun s => Metadata.tags s.2) in
  query (UpdateTags md5 t).

Definition add_tags (tags : list string) : St state (option (list tag_row)) :=
  match tags with
  | [] => ret None
  | _ =>
      let* _ := transaction (executemany (map InsertTag tags)) in
      let* _ := query (SelectTags tags) in
      let* tags' := results tags in
      let ids := map tag_id tags' in
      let* _ := modify (fun s : state =>
        (s.1, Metadata.set_tags s.2 (tags_dict tags' ∪ Metadata.tags s.2))) in
      let* _ := transaction
        (let* _ := insert_taggings ids in update_zipball_tags) in
      ret (Some tags')
  end.

(** [[meta.tags[name] for name in tags]]. *)
Fixpoint tag_ids_of (t : gmap string Z) (tags : list string) : result (list Z) :=
  match tags with
  | [] => Ok []
  | n :: rest =>
      match t !! n with
      | None => Raise (Exn KeyError ("'" +:+ n +:+ "'"))
      | Some i =>
          match tag_ids_of t rest with
          | Ok ids => Ok (i :: ids)
          | Raise e => Raise e
          end
      end
  end.

Definition meta_tag_ids (tags : list string) : St state (list Z) :=
  fun s => (s, tag_ids_of (Metadata.tags s.2) tags).

Definition remove_tags (tags : list string) : St state unit :=
  match tags with
  | [] => ret tt
  | _ =>
      let* tag_ids := meta_tag_ids tags in
      let* _ := modify (fun s : state =>
        (s.1, Metadata.set_tags s.2
                (filter (fun kv => negb (str_in kv.1 tags)) (Metadata.tags s.2)))) in
      transaction
        (let* md5 := meta_md5 in
         let* _ := query (DeleteTaggings md5 tag_ids) in
         update_zipball_tags)
  end.

(** The rows of [zipballs] after the [tags] column of the content [h] has
    been written: nothing but that column of that content changes. *)
Definition tags_stored (h : string) (t : gmap string Z) (before after : list zipball) :=
  Forall2 (fun r r' =>
             zb_md5 r' = zb_md5 r /\ zb_views r' = zb_views r
             /\ zb_tags r' = if decide (zb_md5 r = h) then t else zb_tags r)
          before after.

End EmbeddedArchive.

(** ** Sample documents, runtimes and databases

    Concrete inputs for the examples below.  The library calls are tabulated
    at the documents the examples use; elsewhere the tables raise. *)

Module Samples.

Import Metadata EmbeddedArchive.

(** The text of a JSON object whose values are plain strings. *)
Definition json_member (kv : string * string) : string :=
  dquote +:+ kv.1 +:+ dquote +:+ ": " +:+ dquote +:+ kv.2 +:+ dquote.

Definition json_object (kvs : list (string * string)) : string :=
  "{" +:+ String.concat ", " (map json_member kvs) +:+ "}".

Definition dict_of (kvs : list (string * string)) : dict :=
  list_to_map (map (fun kv => (kv.1, VStr kv.2)) kvs).

Definition complete : list (string * string) :=
  [ ("url", "http://example.com/"); ("title", "Example");
    ("timestamp", "2014-08-10 19:59:19 UTC"); ("license", "GFDL") ].

(** [complete] without its title. *)
Definition untitled : list (string * string) :=
  [ ("url", "http://example.com/");
    ("timestamp", "2014-08-10 19:59:19 UTC"); ("license", "GFDL") ].

(** [complete] with a key the specification does not know. *)
Definition with_extra : list (string * string) := complete ++ [("foo", "bar")].

(** [complete] with the legacy aliases of [publisher] and [entry_point]. *)
Definition with_aliases : list (string * string) :=
  complete ++ [("partner", "Partner"); ("index", "some.html")].

(** [complete] with a timestamp that is not a date. *)
Definition undated : list (string * string) :=
  [ ("url", "http://example.com/"); ("title", "Example");
    ("timestamp", "foo"); ("license", "GFDL") ].

Definition documents : list (list (string * string)) :=
  [complete; untitled; with_extra; with_aliases; undated].

Definition all_ascii (b : list byte) : bool :=
  forallb (fun x => (Byte.to_nat x <? 128)%nat) b.

Definition decode_utf8 (b : list byte) : result string :=
  if all_ascii b then Ok (string_of_list_byte b)
  else Raise (Exn UnicodeDecodeError "'utf8' codec can't decode bytes").

Definition json_loads (text : string) : result dict :=
  match List.find (fun kvs => String.eqb text (json_object kvs)) documents with
  | Some kvs => Ok (dict_of kvs)
  | None => Raise (Exn ValueError "No JSON object could be decoded")
  end.

Definition dateutil_parse (v : value) : result datetime :=
  if eq_str v "2014-08-10 19:59:19 UTC"
  then Ok (Datetime (Date 2014 8 10) 19 59 19)
  else Raise (Exn ValueError "Unknown string format").

Definition bytes_of (kvs : list (string * string)) : list byte :=
  list_byte_of_string (json_object kvs).

(** What [convert_json] returns for a sample document. *)
Definition converted (kvs : list (string * string)) : dict :=
  match convert_json decode_utf8 json_loads dateutil_parse (bytes_of kvs) with
  | Ok r => r
  | Raise _ => ∅
  end.

(** ['%s' % v], exact on the strings the examples format. *)
Definition format_s (v : value) : string :=
  match v with
  | VStr s => s
  | VBool true => "True"
  | VBool false => "False"
  | _ => "None"
  end.

(** A machine with an empty cover directory and no zip file: [glob.glob]
    finds nothing, and [open] raises what Python 2 raises for a path that
    does not exist, [IOError] with errno 2. *)
Definition no_files : runtime :=
  Runtime format_s
          (fun _ => [])
          (fun path => Raise (Exn IOError
             ("[Errno 2] No such file or directory: '" +:+ path +:+ "'")))
          (fun path _ => Raise (Exn IOError
             ("[Errno 2] No such file or directory: '" +:+ path +:+ "'"))).

(** A machine on which opening the zip file fails with an [OSError]. *)
Definition failing_disk : runtime :=
  Runtime format_s
          (fun _ => [])
          (fun _ => Raise (Exn OSError "[Errno 5] Input/output error"))
          (fun _ _ => Ok tt).

(** A machine with an empty cover directory on which every zip file holds a
    page, a picture and a second picture, and covers can be written. *)
Definition with_zip : runtime :=
  Runtime format_s
          (fun _ => [])
          (fun _ => Ok [ ("index.html", Ok [x3c]);
                         ("img/Logo.PNG", Ok [x89; x50]);
                         ("photo.jpg", Ok [xff]) ])
          (fun _ _ => Ok tt).

(** A machine whose cover directory has a cover for every record. *)
Definition with_cover : runtime :=
  Runtime format_s
          (fun _ => ["covers/abc.jpg"])
          (fun path => Raise (Exn IOError
             ("[Errno 2] No such file or directory: '" +:+ path +:+ "'")))
          (fun _ _ => Ok tt).

(** A content record whose zip file is expected at [content/abc.zip]. *)
Definition content : Meta :=
  MkMeta {[ "md5" := VStr "abc"; "title" := VStr "Example";
            "language" := VStr "ar"; "archive" := VStr "ephem";
            "is_sponsored" := VBool true ]}
         ∅ None "covers" (Some "content/abc.zip").

(** The same record, already tagged with [a]. *)
Definition tagged : Meta :=
  MkMeta (meta content) {[ "a" := 1 ]} None "covers" (Some "content/abc.zip").

(** A record that is not a content record: it has no md5. *)
Definition anonymous : Meta :=
  MkMeta {[ "title" := VStr "Example" ]} ∅ None "covers" None.

Definition archive : database :=
  Database [Zipball "abc" 0 {[ "a" := 1 ]}; Zipball "def" 7 ∅]
           [TagRow 1 "a"] [Tagging 1 "abc"] 0 [].

End Samples.

(** ** Proof tactics *)

(** Case analysis on a successful [STANDARD_FIELDS[key]]: one case for each
    of the fifteen entries. *)
Ltac field_cases H :=
  cbv -[String.eqb Metadata.default_broadcast] in H;
  repeat match type of H with
         | (if String.eqb ?k ?key then _ else _) = _ =>
             destruct (String.eqb_spec k key) as [<- | ?]
         end;
  try discriminate H.

(** Turn membership in a list literal into one case for each element. *)
Ltac elem_cases H :=
  repeat match type of H with
         | _ ∈ _ :: _ => apply elem_of_cons in H as [-> | H]
         | _ ∈ [] => apply elem_of_nil in H; destruct H
         end.

(** Membership of a literal in a list literal. *)
Ltac elem_lit := apply list_elem_of_In; simpl; tauto.

(** A name with or without a picture extension, by computation. *)
Ltac not_picture :=
  let H := fresh in
  intros H; apply list_elem_of_In in H; vm_compute in H; intuition discriminate.

Ltac is_picture := apply list_elem_of_In; vm_compute; tauto.

(** * Properties *)

(** ** The metadata wrapper *)

Section WrapperProperties.

Import Metadata.

Lemma in_strs_iff (v : value) (l : list string) :
  in_strs v l = true <-> exists s, v = VStr s /\ In s l.
Proof.
  unfold in_strs. rewrite existsb_exists. split.
  - intros (s & Hin & Heq). destruct v; try discriminate.
    apply String.eqb_eq in Heq. subst. eauto.
  - intros (s & -> & Hin). exists s. split; [done|]. apply String.eqb_refl.
Qed.

Lemma eq_str_iff (v : value) (s : string) : eq_str v s = true <-> v = VStr s.
Proof.
  destruct v; simpl; try (split; [discriminate | intros [=]]).
  rewrite String.eqb_eq. split; [intros -> | intros [=]]; done.
Qed.

(** C8.  The [rtl] property of a wrapper is true exactly when the record has
    a ['language'] entry that is one of the strings 'ar', 'he', 'ur', 'yi',
    'ji', 'iw', 'fa'. *)
Theorem rtl_iff_language_in_rtl_langs (self : Meta) :
  rtl self = true <->
  exists s, meta self !! "language" = Some (VStr s)
            /\ In s ["ar"; "he"; "ur"; "yi"; "ji"; "iw"; "fa"].
Proof.
  unfold rtl, lang, get. rewrite in_strs_iff. change RTL_LANGS with
    ["ar"; "he"; "ur"; "yi"; "ji"; "iw"; "fa"].
  destruct (meta self !! "language") as [v|]; simpl; split.
  - intros (s & -> & Hin). eauto.
  - intros (s & [= ->] & Hin). eauto.
  - intros (s & [=] & _).
  - intros (s & [=] & _).
Qed.

(** C9.  [label] is one of 'core', 'sponsored' and 'partner', and 'core'
    comes first: a record whose archive is 'core' is labelled 'core' whatever
    its flags say; any other record is 'sponsored' when [is_sponsored] is
    true, else 'partner' when [is_partner] is true, else 'core'. *)
Theorem label_core_takes_precedence (self : Meta) :
  (label self = "core" \/ label self = "sponsored" \/ label self = "partner")
  /\ (get self "archive" = VStr "core" -> label self = "core")
  /\ (get self "archive" <> VStr "core" ->
      (truthy (get self "is_sponsored") = true -> label self = "sponsored")
      /\ (truthy (get self "is_sponsored") = false ->
          truthy (get self "is_partner") = true -> label self = "partner")
      /\ (truthy (get self "is_sponsored") = false ->
          truthy (get self "is_partner") = false -> label self = "core")).
Proof.
  unfold label.
  destruct (eq_str (get self "archive") "core") eqn:Harchive.
  - apply eq_str_iff in Harchive. repeat split; auto; congruence.
  - assert (get self "archive" <> VStr "core") as Hne.
    { intros Heq. apply eq_str_iff in Heq. congruence. }
    destruct (truthy (get self "is_sponsored")), (truthy (get self "is_partner"));
      repeat split; auto; congruence.
Qed.

(** What [image] does once the lookups before the extraction are through and
    [extract_image] raises: the handler turns instances of [TypeError] and
    [OSError] into "no image" and lets every other exception pass. *)
Lemma image_when_extraction_raises (rt : runtime) (self : Meta) (md5 : value) (e : exn) :
  _image self = None ->
  meta self !! "md5" = Some md5 ->
  glob_glob rt (path_join (cover_dir self) (format_s rt md5 +:+ ".*")) = [] ->
  str_truthy (zip_path self) = true ->
  extract_image rt self = Raise e ->
  image rt self =
    (self, if catches [TypeError; OSError] e then Ok None else Raise e).
Proof.
  intros Himg Hmd5 Hglob Hzip Hextract.
  unfold image, get_cover_path, getattr.
  rewrite Himg, Hmd5, Hglob. simpl. rewrite Hzip. simpl.
  rewrite Hextract. by destruct (_ || _).
Qed.

(** C7, at a record whose zip file does not exist.  No cover is cached, the
    path of the zip file is set, and [open] raises [IOError]; the handler
    names [TypeError] and [OSError] only, so [image] raises the [IOError]
    instead of returning [None]. *)
Theorem image_missing_zip_raises :
  _image Samples.content = None
  /\ get_cover_path Samples.no_files Samples.content = Ok None
  /\ catches [TypeError; OSError]
       (Exn IOError "[Errno 2] No such file or directory: 'content/abc.zip'") = false
  /\ image Samples.no_files Samples.content =
       (Samples.content,
        Raise (Exn IOError "[Errno 2] No such file or directory: 'content/abc.zip'")).
Proof. repeat split; vm_compute; reflexivity. Qed.

End WrapperProperties.

(** ** The archive index *)

Section ArchiveProperties.

Import Metadata EmbeddedArchive.

(** C10.  With an empty tag collection [add_tags] and [remove_tags] return
    at once: the state they leave is the state they found, so no statement
    was sent to the database and [meta.tags] is what it was. *)
Theorem tags_empty_noop (db : database) (meta : Meta) :
  add_tags [] (db, meta) = ((db, meta), Ok None)
  /\ remove_tags [] (db, meta) = ((db, meta), Ok tt)
  /\ executed (add_tags [] (db, meta)).1.1 = executed db
  /\ executed (remove_tags [] (db, meta)).1.1 = executed db
  /\ tags (add_tags [] (db, meta)).1.2 = tags meta
  /\ tags (remove_tags [] (db, meta)).1.2 = tags meta.
Proof. repeat split. Qed.

Lemma count_md5_none (md5 : string) (rows : list zipball) :
  Forall (fun r => zb_md5 r <> md5) rows -> count_md5 md5 rows = 0.
Proof.
  unfold count_md5. induction 1 as [|r rows Hr _ IH]; [done|].
  simpl. destruct (String.eqb_spec (zb_md5 r) md5); [done|]. exact IH.
Qed.

Lemma bump_views_none (md5 : string) (rows : list zipball) :
  Forall (fun r => zb_md5 r <> md5) rows -> map (bump_views md5) rows = rows.
Proof.
  induction 1 as [|r rows Hr _ IH]; [done|].
  simpl. rewrite IH. unfold bump_views.
  destruct (String.eqb_spec (zb_md5 r) md5); done.
Qed.

Lemma filter_md5_app (md5 : string) (l1 l2 : list zipball) :
  count_md5 md5 (l1 ++ l2)%list = count_md5 md5 l1 + count_md5 md5 l2.
Proof. unfold count_md5. rewrite List.filter_app, length_app. lia. Qed.

(** C5.  When no row of [zipballs] has the given md5, [add_view] changes no
    row, finds a row count of zero and fails its assertion.  When exactly one
    row has it, [add_view] returns the row count 1 and that row's view count
    is one more than before, the other rows being as they were. *)
Theorem add_view_exactly_one_row (md5 : string) (db : database) :
  (Forall (fun r => zb_md5 r <> md5) (zipballs db) ->
   exists db',
     add_view md5 (db, tt) =
       ((db', tt), Raise (Exn AssertionError "Updated more than one row"))
     /\ rowcount db' = 0
     /\ zipballs db' = zipballs db)
  /\ (forall before row after,
        zipballs db = (before ++ row :: after)%list ->
        zb_md5 row = md5 ->
        Forall (fun r => zb_md5 r <> md5) (before ++ after)%list ->
        exists db',
          add_view md5 (db, tt) = ((db', tt), Ok 1)
          /\ zipballs db' =
               (before ++ Zipball md5 (zb_views row + 1) (zb_tags row) :: after)%list).
Proof.
  split.
  - intros Hnone. eexists. unfold add_view, bind, query, modify, gets. simpl.
    rewrite (count_md5_none _ _ Hnone). simpl.
    split; [reflexivity|]. split; [reflexivity|].
    simpl. by apply bump_views_none.
  - intros before row after Hrows Hmd5 Hothers.
    apply Forall_app in Hothers as [Hbefore Hafter].
    eexists. unfold add_view, bind, query, modify, gets. simpl.
    assert (count_md5 md5 (zipballs db) = 1) as ->.
    { rewrite Hrows, filter_md5_app, (count_md5_none _ _ Hbefore).
      change (row :: after) with ([row] ++ after)%list.
      rewrite filter_md5_app, (count_md5_none _ _ Hafter).
      unfold count_md5. simpl. rewrite Hmd5, String.eqb_refl. done. }
    simpl. split; [reflexivity|]. simpl.
    rewrite Hrows, map_app. simpl.
    rewrite (bump_views_none _ _ Hbefore), (bump_views_none _ _ Hafter).
    unfold bump_views. rewrite Hmd5, String.eqb_refl. done.
Qed.

(** *** Tags *)

Lemma bind_ok {S A B} (c : St S A) (k : A -> St S B) (s s' : S) (a : A) :
  c s = (s', Ok a) -> bind c k s = k a s'.
Proof. unfold bind. by intros ->. Qed.

Lemma transaction_ok {M A} (body : St (database * M) A) s s' a :
  body (record Begin s.1, s.2) = (s', Ok a) ->
  transaction body s = ((record Commit s'.1, s'.2), Ok a).
Proof. unfold transaction. by intros ->. Qed.

Lemma str_in_iff (s : string) (l : list string) : str_in s l = true <-> s ∈ l.
Proof.
  unfold str_in. rewrite existsb_exists, list_elem_of_In. split.
  - intros (x & Hin & Heq). apply String.eqb_eq in Heq. by subst.
  - intros Hin. exists s. split; [done|]. apply String.eqb_refl.
Qed.

Lemma has_tag_iff (n : string) (rows : list tag_row) :
  has_tag n rows = true <-> exists r, r ∈ rows /\ name r = n.
Proof.
  unfold has_tag. rewrite existsb_exists. split.
  - intros (r & Hin & Heq). apply String.eqb_eq in Heq.
    exists r. by rewrite list_elem_of_In.
  - intros (r & Hin & <-). exists r. rewrite <- list_elem_of_In.
    split; [done|]. apply String.eqb_refl.
Qed.

Lemma executemany_run {M} (qs : list statement) (s : database * M) :
  executemany qs s = ((run_all qs s.1, s.2), Ok tt).
Proof.
  revert s. induction qs as [|q qs IH]; intros [db m]; [done|].
  simpl. unfold bind, query, modify. simpl. by rewrite IH.
Qed.

Lemma has_tag_app (n : string) (rows more : list tag_row) :
  has_tag n (rows ++ more) = has_tag n rows || has_tag n more.
Proof. unfold has_tag. apply existsb_app. Qed.

(** Inserting the names [ns] leaves a row for each of them, and keeps the
    rows there were. *)
Lemma insert_tags_ensures (ns : list string) (db : database) (n : string) :
  n ∈ ns \/ has_tag n (tag_rows db) = true ->
  has_tag n (tag_rows (run_all (map InsertTag ns) db)) = true.
Proof.
  revert db. induction ns as [|x ns IH]; intros db.
  - intros [Hin | Hhas]; [by apply elem_of_nil in Hin | done].
  - intros Hn. simpl. apply IH.
    destruct (decide (n ∈ ns)) as [|Hnotin]; [by left | right].
    destruct (has_tag x (tag_rows db)) eqn:Hx; simpl.
    + destruct Hn as [Hin | Hhas]; [|done].
      apply elem_of_cons in Hin as [-> | Hin]; done.
    + rewrite has_tag_app. destruct Hn as [Hin | ->]; [|done].
      apply elem_of_cons in Hin as [-> | Hin]; [|done].
      unfold has_tag at 2. simpl. rewrite String.eqb_refl.
      by rewrite orb_true_r.
Qed.

Lemma tags_dict_from (rows : list tag_row) (m : gmap string Z) (n : string) :
  is_Some (foldl (fun m t => <[name t := tag_id t]> m) m rows !! n)
  <-> is_Some (m !! n) \/ has_tag n rows = true.
Proof.
  revert m. induction rows as [|r rows IH]; intros m; simpl.
  - unfold has_tag. simpl. split; [by left | by intros [? | ?]].
  - rewrite IH. unfold has_tag. simpl.
    destruct (String.eqb_spec (name r) n) as [-> | Hne]; simpl.
    + rewrite lookup_insert_eq. split; [by right | by left].
    + rewrite lookup_insert_ne by done. reflexivity.
Qed.

Lemma tags_dict_dom (rows : list tag_row) (n : string) :
  is_Some (tags_dict rows !! n) <-> has_tag n rows = true.
Proof.
  unfold tags_dict. rewrite tags_dict_from, lookup_empty.
  split; [intros [[? [=]] | ?]; done | by right].
Qed.

Lemma has_tag_selected (names : list string) (rows : list tag_row) (n : string) :
  has_tag n (List.filter (fun r => str_in (name r) names) rows) = true
  <-> n ∈ names /\ has_tag n rows = true.
Proof.
  rewrite !has_tag_iff. split.
  - intros (r & Hin & <-). apply list_elem_of_In, filter_In in Hin as [Hin Hsel].
    apply str_in_iff in Hsel. split; [done|]. exists r. by rewrite list_elem_of_In.
  - intros (Hn & r & Hin & <-). exists r. split; [|done].
    apply list_elem_of_In, filter_In. split; [by apply list_elem_of_In|].
    by apply str_in_iff.
Qed.

Lemma meta_md5_ok (s : state) (h : string) :
  meta s.2 !! "md5" = Some (VStr h) -> meta_md5 s = (s, Ok h).
Proof. unfold meta_md5, getattr. by intros ->. Qed.

Lemma update_zipball_tags_ok (s : state) (h : string) :
  meta s.2 !! "md5" = Some (VStr h) ->
  exists db', update_zipball_tags s = ((db', s.2), Ok tt).
Proof.
  intros Hmd5. unfold update_zipball_tags.
  rewrite (bind_ok _ _ _ _ _ (meta_md5_ok s h Hmd5)).
  unfold bind, gets, query, modify. simpl. eauto.
Qed.

Lemma insert_taggings_ok (ids : list Z) (s : state) (h : string) :
  meta s.2 !! "md5" = Some (VStr h) ->
  exists db', insert_taggings ids s = ((db', s.2), Ok tt).
Proof.
  intros Hmd5. revert s Hmd5. induction ids as [|i ids IH]; intros s Hmd5; simpl.
  - exists s.1. by destruct s.
  - rewrite (bind_ok _ _ _ _ _ (meta_md5_ok s h Hmd5)).
    unfold bind at 1, query, modify. simpl. apply (IH (_, s.2)). exact Hmd5.
Qed.

(** What [add_tags] does to a content record: every requested name ends up
    in the rows selected, and [meta.tags] is updated with exactly these. *)
Lemma add_tags_run (tags : list string) (db : database) (m : Meta) (h : string) :
  tags <> [] ->
  meta m !! "md5" = Some (VStr h) ->
  exists db' rows,
    add_tags tags (db, m) =
      ((db', set_tags m (tags_dict rows ∪ Metadata.tags m)), Ok (Some rows))
    /\ forall n, is_Some (tags_dict rows !! n) <-> n ∈ tags.
Proof.
  intros Hne Hmd5. destruct tags as [|t0 ts]; [done|]. clear Hne.
  unfold add_tags. set (T := t0 :: ts).
  erewrite bind_ok; [|apply transaction_ok, executemany_run].
  unfold bind at 1, query at 1, modify at 1.
  unfold bind at 1, results at 1, gets at 1.
  unfold bind at 1, modify at 1. cbn [fst snd].
  set (db1 := record (SelectTags T) _).
  set (rows := List.filter _ (tag_rows db1)).
  set (m1 := set_tags m _).
  destruct (insert_taggings_ok (map tag_id rows) (record Begin db1, m1) h Hmd5)
    as [db2 Hins].
  destruct (update_zipball_tags_ok (db2, m1) h Hmd5) as [db3 Hupd].
  erewrite bind_ok; [|apply transaction_ok; erewrite bind_ok; eauto].
  exists (record Commit db3), rows. split; [reflexivity|].
  intros n. rewrite tags_dict_dom. unfold rows. rewrite has_tag_selected.
  split; [by intros [? _]|]. intros Hn. split; [done|].
  change (tag_rows db1)
    with (tag_rows (run_all (map InsertTag T) (record Begin db))).
  apply insert_tags_ensures. by left.
Qed.

Lemma tag_ids_of_ok (t : gmap string Z) (tags : list string) :
  (forall n, n ∈ tags -> is_Some (t !! n)) ->
  exists ids, tag_ids_of t tags = Ok ids.
Proof.
  induction tags as [|n tags IH]; intros Hall; simpl; [eauto|].
  destruct (Hall n) as [i ->]; [by left|].
  destruct IH as [ids ->]; [|eauto].
  intros n' Hn'. apply Hall. by right.
Qed.

Lemma remove_tags_run (tags : list string) (db : database) (m : Meta) (h : string) :
  tags <> [] ->
  meta m !! "md5" = Some (VStr h) ->
  (forall n, n ∈ tags -> is_Some (Metadata.tags m !! n)) ->
  exists db',
    remove_tags tags (db, m) =
      ((db', set_tags m (filter (fun kv => negb (str_in kv.1 tags)) (Metadata.tags m))),
       Ok tt).
Proof.
  intros Hne Hmd5 Hall. destruct (tag_ids_of_ok _ _ Hall) as [ids Hids].
  destruct tags as [|t0 ts]; [done|]. clear Hne.
  unfold remove_tags. set (T := t0 :: ts) in *.
  rewrite (bind_ok (meta_tag_ids T) _ (db, m) (db, m) ids);
    [|unfold meta_tag_ids; cbn [snd]; by rewrite Hids].
  unfold bind at 1, modify at 1. cbn [fst snd].
  set (m1 := set_tags m _).
  destruct (update_zipball_tags_ok
              (record (DeleteTaggings h ids)
                 (effect (DeleteTaggings h ids) (record Begin db)), m1) h Hmd5)
    as [db2 Hupd].
  exists (record Commit db2). apply (transaction_ok _ (db, m1) (db2, m1) tt).
  erewrite bind_ok; [|by apply meta_md5_ok].
  unfold bind at 1, query at 1, modify at 1. cbn [fst snd]. exact Hupd.
Qed.

(** C6, as the code has it.  For a content record (one whose md5 is a
    string) and a non-empty tag set, [add_tags] followed by [remove_tags] on
    the same set both succeed and leave in [meta.tags] the entries it had
    before under names outside the set.  That is the mapping [meta.tags] had
    before [add_tags] when none of the names was in it. *)
Theorem add_then_remove_tags (tags : list string) (db : database) (m : Meta)
    (h : string) :
  tags <> [] ->
  meta m !! "md5" = Some (VStr h) ->
  exists s1 rows s2,
    add_tags tags (db, m) = (s1, Ok (Some rows))
    /\ remove_tags tags s1 = (s2, Ok tt)
    /\ (forall n, Metadata.tags s2.2 !! n =
                  if decide (n ∈ tags) then None else Metadata.tags m !! n)
    /\ ((forall n, n ∈ tags -> Metadata.tags m !! n = None) ->
        Metadata.tags s2.2 = Metadata.tags m).
Proof.
  intros Hne Hmd5.
  destruct (add_tags_run tags db m h Hne Hmd5) as (db1 & rows & Hadd & Hdom).
  set (m1 := set_tags m (tags_dict rows ∪ Metadata.tags m)) in *.
  destruct (remove_tags_run tags db1 m1 h Hne Hmd5) as [db2 Hrem].
  { intros n Hn. unfold m1. simpl. rewrite lookup_union.
    apply Hdom in Hn as [i ->]. by destruct (Metadata.tags m !! n). }
  exists (db1, m1), rows, (db2, set_tags m1 (filter (fun kv => negb (str_in kv.1 tags))
                                               (Metadata.tags m1))).
  split; [done|]. split; [done|].
  assert (forall n, filter (fun kv => negb (str_in kv.1 tags)) (Metadata.tags m1) !! n =
                    if decide (n ∈ tags) then None else Metadata.tags m !! n) as Hlookup.
  { intros n. unfold m1. simpl. destruct (decide (n ∈ tags)) as [Hn | Hn].
    - apply map_lookup_filter_None. right. intros x _. simpl.
      apply str_in_iff in Hn. rewrite Hn. simpl. tauto.
    - assert (tags_dict rows !! n = None) as Hnone.
      { apply eq_None_not_Some. by rewrite Hdom. }
      destruct (Metadata.tags m !! n) as [i|] eqn:Hi.
      + apply map_lookup_filter_Some. split.
        * rewrite lookup_union, Hnone, Hi. done.
        * simpl. destruct (str_in n tags) eqn:Hin; [|exact I].
          by apply str_in_iff in Hin.
      + apply map_lookup_filter_None. left. by rewrite lookup_union, Hnone, Hi. }
  split; [exact Hlookup|].
  intros Hfresh. simpl. apply map_eq. intros n. rewrite Hlookup.
  destruct (decide (n ∈ tags)); [by rewrite Hfresh | done].
Qed.

(** The theorem above at the sample archive and an untagged record. *)
Lemma add_then_remove_tags_witness :
  ["a"; "b"] <> []
  /\ meta Samples.content !! "md5" = Some (VStr "abc")
  /\ exists s1 rows s2,
       add_tags ["a"; "b"] (Samples.archive, Samples.content) = (s1, Ok (Some rows))
       /\ remove_tags ["a"; "b"] s1 = (s2, Ok tt)
       /\ (forall n, Metadata.tags s2.2 !! n =
                     if decide (n ∈ ["a"; "b"]) then None
                     else Metadata.tags Samples.content !! n)
       /\ ((forall n, n ∈ ["a"; "b"] -> Metadata.tags Samples.content !! n = None) ->
           Metadata.tags s2.2 = Metadata.tags Samples.content).
Proof.
  split; [discriminate|]. split; [reflexivity|].
  apply (add_then_remove_tags ["a"; "b"] Samples.archive Samples.content "abc");
    [discriminate | reflexivity].
Defined.

(** C6 as stated fails for a record that already carries one of the tags:
    adding and then removing 'a' on a record tagged 'a' leaves it without
    tags. *)
Lemma add_then_remove_tags_not_restored :
  ~ (forall (tags : list string) (db : database) (m : Meta) s1 r s2,
       tags <> [] ->
       add_tags tags (db, m) = (s1, Ok r) ->
       remove_tags tags s1 = (s2, Ok tt) ->
       Metadata.tags s2.2 = Metadata.tags m).
Proof.
  intros Hclaim.
  pose (s1 := (add_tags ["a"] (Samples.archive, Samples.tagged)).1).
  pose (s2 := (remove_tags ["a"] s1).1).
  assert (Metadata.tags s2.2 = Metadata.tags Samples.tagged) as Heq.
  { apply (Hclaim ["a"] Samples.archive Samples.tagged s1
                  (Some [TagRow 1 "a"]) s2); [discriminate | | ];
      vm_compute; reflexivity. }
  apply (f_equal (fun t => t !! "a")) in Heq. vm_compute in Heq. discriminate.
Qed.

End ArchiveProperties.

(** ** The metadata normaliser *)

Section NormalizerProperties.

Import Metadata.

Variable dateutil_parse : value -> result datetime.

Local Abbreviation STANDARD_FIELDS := (STANDARD_FIELDS dateutil_parse).
Local Abbreviation REQUIRED_KEYS := (REQUIRED_KEYS dateutil_parse).
Local Abbreviation get_default_value := (get_default_value dateutil_parse).
Local Abbreviation get_aliases_for := (get_aliases_for dateutil_parse).
Local Abbreviation is_required := (is_required dateutil_parse).
Local Abbreviation replace_aliases := (replace_aliases dateutil_parse).
Local Abbreviation replace_aliases_step := (replace_aliases_step dateutil_parse).
Local Abbreviation add_missing_keys_from := (add_missing_keys_from dateutil_parse).
Local Abbreviation add_missing_keys := (add_missing_keys dateutil_parse).
Local Abbreviation clean_keys := (clean_keys dateutil_parse).
Local Abbreviation first_missing := (first_missing dateutil_parse).
Lemma standard_keys :
  STANDARD_FIELDS.*1 =
  [ "url"; "title"; "images"; "timestamp"; "keep_formatting"; "is_partner";
    "is_sponsored"; "archive"; "publisher"; "license"; "language"; "multipage";
    "entry_point"; "broadcast"; "keywords" ].
Proof. reflexivity. Qed.

Lemma required_keys : REQUIRED_KEYS = ["url"; "title"; "timestamp"; "license"].
Proof. reflexivity. Qed.

Lemma field_lookup_standard (key : string) :
  key ∈ STANDARD_FIELDS.*1 <-> is_Some (field_lookup key STANDARD_FIELDS).
Proof.
  split.
  - intros Hin. rewrite standard_keys in Hin. elem_cases Hin; by eexists.
  - intros [v Hv]. rewrite standard_keys. field_cases Hv; elem_lit.
Qed.

(** *** Alias replacement *)

Lemma replace_aliases_step_plain (m : dict) (key : string) :
  get_aliases_for key = Ok [] -> replace_aliases_step m key = m.
Proof.
  intros H. unfold Metadata.replace_aliases_step. rewrite H.
  by destruct (m !! key).
Qed.

Lemma replace_aliases_two_steps (d : dict) :
  replace_aliases d =
  replace_aliases_step (replace_aliases_step d "publisher") "entry_point".
Proof.
  unfold Metadata.replace_aliases. rewrite standard_keys. cbn [foldl].
  repeat match goal with
         | |- context [replace_aliases_step ?m ?k] =>
             rewrite (replace_aliases_step_plain m k) by reflexivity
         end.
  reflexivity.
Qed.

(** The entries of a record after one step of the outer loop, for a key
    with a single alias. *)
Lemma replace_aliases_step_lookup (m : dict) (key alias k : string) :
  key <> alias ->
  get_aliases_for key = Ok [alias] ->
  replace_aliases_step m key !! k =
    if decide (k = key)
    then match m !! key with Some v => Some v | None => m !! alias end
    else if decide (k = alias)
         then match m !! key with Some _ => m !! alias | None => None end
         else m !! k.
Proof.
  intros Hne Haliases. unfold Metadata.replace_aliases_step.
  rewrite Haliases. simpl.
  destruct (m !! key) eqn:Hkey, (m !! alias) eqn:Halias;
    repeat case_decide; simplify_map_eq; done.
Qed.

(** C4.  [replace_aliases] moves a legacy alias to its canonical key exactly
    when the record lacks the canonical key: the canonical key then holds the
    value the alias had and the alias is gone.  A record that has the
    canonical key keeps its value (and its alias entry, if any), and no other
    key is touched.  The aliases are those of the field specification:
    'partner' for 'publisher' and 'index' for 'entry_point'. *)
Theorem replace_aliases_moves_alias (d : dict) (key alias : string)
    (spec : field_spec) :
  field_lookup key STANDARD_FIELDS = Some spec ->
  alias ∈ spec_get f_aliases [] spec ->
  ((key = "publisher" /\ alias = "partner")
   \/ (key = "entry_point" /\ alias = "index"))
  /\ (d !! key = None ->
      replace_aliases d !! key = d !! alias
      /\ replace_aliases d !! alias = None)
  /\ (is_Some (d !! key) ->
      replace_aliases d !! key = d !! key
      /\ replace_aliases d !! alias = d !! alias)
  /\ (forall k, k ∉ ["publisher"; "partner"; "entry_point"; "index"] ->
      replace_aliases d !! k = d !! k).
Proof.
  intros Hspec Halias.
  assert ((key = "publisher" /\ alias = "partner")
          \/ (key = "entry_point" /\ alias = "index")) as Hpair.
  { field_cases Hspec; injection Hspec as <-;
      unfold spec_get in Halias; simpl in Halias; elem_cases Halias; auto. }
  split; [exact Hpair|].
  assert (forall k, replace_aliases d !! k =
            if decide (k = "entry_point")
            then match d !! "entry_point" with
                 | Some v => Some v
                 | None => d !! "index"
                 end
            else if decide (k = "index")
            then match d !! "entry_point" with
                 | Some _ => d !! "index"
                 | None => None
                 end
            else if decide (k = "publisher")
            then match d !! "publisher" with
                 | Some v => Some v
                 | None => d !! "partner"
                 end
            else if decide (k = "partner")
            then match d !! "publisher" with
                 | Some _ => d !! "partner"
                 | None => None
                 end
            else d !! k) as Hlookup.
  { intros k. rewrite replace_aliases_two_steps.
    rewrite (replace_aliases_step_lookup _ "entry_point" "index") by done.
    rewrite !(replace_aliases_step_lookup _ "publisher" "partner") by done.
    repeat case_decide; subst; done. }
  split; [|split].
  - intros Hnone. rewrite !Hlookup.
    destruct Hpair as [[-> ->] | [-> ->]]; rewrite Hnone; done.
  - intros [v Hsome]. rewrite !Hlookup.
    destruct Hpair as [[-> ->] | [-> ->]]; rewrite Hsome; done.
  - intros k Hk. rewrite Hlookup.
    repeat case_decide; subst; try done; exfalso; apply Hk; elem_lit.
Qed.

(** *** Mandatory keys *)

Lemma is_required_standard (key : string) :
  key ∈ STANDARD_FIELDS.*1 -> exists b, is_required key = Ok b.
Proof.
  intros Hin. rewrite standard_keys in Hin. elem_cases Hin; by eexists.
Qed.

Lemma required_keys_iff (key : string) :
  key ∈ REQUIRED_KEYS <-> key ∈ STANDARD_FIELDS.*1 /\ is_required key = Ok true.
Proof.
  rewrite required_keys, standard_keys. split.
  - intros Hin. elem_cases Hin; (split; [elem_lit | reflexivity]).
  - intros [Hin Hreq]. elem_cases Hin; try discriminate Hreq; elem_lit.
Qed.

Lemma has_timestamp : "timestamp" ∈ REQUIRED_KEYS.
Proof. rewrite required_keys. elem_lit. Qed.

(** The check either passes, and then every required key it walked is
    there, or it raises [FormatError] naming a required key that is not. *)
Lemma first_missing_spec (keys : list string) (m : dict) :
  (forall k, k ∈ keys -> exists b, is_required k = Ok b) ->
  match first_missing keys m with
  | Ok _ => forall k, k ∈ keys -> is_required k = Ok true -> is_Some (m !! k)
  | Raise e =>
      exists k, k ∈ keys /\ is_required k = Ok true /\ m !! k = None
                /\ e = mandatory_key_missing k
  end.
Proof.
  induction keys as [|key keys IH]; intros Hvalid; simpl.
  - intros k Hk. by apply elem_of_nil in Hk.
  - assert (forall k, k ∈ keys -> exists b, is_required k = Ok b) as Hrest.
    { intros k Hk. apply Hvalid. by right. }
    specialize (IH Hrest).
    destruct (m !! key) as [v|] eqn:Hkey.
    + destruct (first_missing keys m) as [[]|e].
      * intros k Hk Hreq. apply elem_of_cons in Hk as [-> | Hk]; eauto.
      * destruct IH as (k & Hk & ?). exists k. split; [by right | done].
    + destruct (Hvalid key) as [[|] Hreq]; [by left | |]; rewrite Hreq.
      * exists key. repeat split; [by left | done..].
      * destruct (first_missing keys m) as [[]|e].
        -- intros k Hk Hreq'. apply elem_of_cons in Hk as [-> | Hk]; [|eauto].
           congruence.
        -- destruct IH as (k & Hk & ?). exists k. split; [by right | done].
Qed.

Lemma catches_exception (e : exn) : catches [Exception] e = true.
Proof. by destruct e as [[] msg]. Qed.

(** *** Defaults *)

(** Only the computed default reads the record, and it reads
    ['timestamp'] only. *)
Lemma get_default_value_insert (key k : string) (v : value) (m : dict) :
  k <> "timestamp" ->
  get_default_value key (<[k := v]> m) = get_default_value key m.
Proof.
  intros Hk. unfold Metadata.get_default_value.
  destruct (field_lookup key STANDARD_FIELDS) as [spec|] eqn:Hspec; [|done].
  field_cases Hspec; injection Hspec as <-; try reflexivity.
  simpl. unfold default_broadcast. by rewrite lookup_insert_ne.
Qed.

(** The record [add_missing_keys] leaves: entries that were there are kept,
    every walked key that was missing holds its default, nothing else is
    added; or some default raised. *)
Lemma add_missing_keys_from_spec (keys : list string) (m m' : dict)
    (r : result unit) :
  is_Some (m !! "timestamp") ->
  add_missing_keys_from keys m = (m', r) ->
  match r with
  | Ok _ =>
      (forall k v, m !! k = Some v -> m' !! k = Some v)
      /\ (forall k, m !! k = None -> k ∈ keys ->
          exists v, get_default_value k m = Ok v /\ m' !! k = Some v)
      /\ (forall k, m !! k = None -> k ∉ keys -> m' !! k = None)
  | Raise e =>
      exists k, k ∈ keys /\ m !! k = None /\ get_default_value k m = Raise e
  end.
Proof.
  revert m. induction keys as [|key keys IH]; intros m Hts; simpl.
  - intros [= <- <-]. split; [done|]. split; [|done].
    intros k _ Hk. by apply elem_of_nil in Hk.
  - destruct (m !! key) as [v0|] eqn:Hkey.
    + intros Hrun. specialize (IH m Hts Hrun). destruct r as [[]|e].
      * destruct IH as (Hkeep & Hfill & Hrest). split; [done|]. split.
        -- intros k Hk Hin. apply elem_of_cons in Hin as [-> | Hin]; [|eauto].
           congruence.
        -- intros k Hk Hnotin. apply Hrest; [done|].
           intros Hin. apply Hnotin. by right.
      * destruct IH as (k & Hin & ?). exists k. split; [by right | done].
    + destruct (get_default_value key m) as [v|e] eqn:Hdefault.
      * assert (key <> "timestamp") as Hne.
        { intros ->. rewrite Hkey in Hts. by destruct Hts. }
        intros Hrun. specialize (IH (<[key := v]> m)).
        rewrite lookup_insert_ne in IH by done. specialize (IH Hts Hrun).
        destruct r as [[]|e].
        -- destruct IH as (Hkeep & Hfill & Hrest). split; [|split].
           ++ intros k v' Hk. apply Hkeep. rewrite lookup_insert_ne; [done|].
              congruence.
           ++ intros k Hk Hin. destruct (decide (k = key)) as [-> | Hkne].
              ** exists v. split; [done|]. apply Hkeep, lookup_insert_eq.
              ** apply elem_of_cons in Hin as [-> | Hin]; [done|].
                 destruct (Hfill k) as (v' & Hv' & Hm'); [|done|].
                 { by rewrite lookup_insert_ne. }
                 exists v'. split; [|done].
                 by rewrite get_default_value_insert in Hv'.
           ++ intros k Hk Hnotin. apply Hrest.
              ** rewrite lookup_insert_ne; [done|]. intros ->.
                 apply Hnotin. by left.
              ** intros Hin. apply Hnotin. by right.
        -- destruct IH as (k & Hin & Hk & Hraise).
           assert (k <> key) as Hkne.
           { intros ->. by rewrite lookup_insert_eq in Hk. }
           exists k. split; [by right|].
           rewrite lookup_insert_ne in Hk by done.
           by rewrite get_default_value_insert in Hraise.
      * intros [= <- <-]. exists key. split; [by left | done].
Qed.

Lemma add_missing_keys_eq (m : dict) :
  add_missing_keys m = add_missing_keys_from STANDARD_FIELDS.*1 m.
Proof. exact (eq_refl (add_missing_keys_from STANDARD_FIELDS.*1 m)). Qed.

Lemma add_missing_keys_spec (m m' : dict) (r : result unit) :
  is_Some (m !! "timestamp") ->
  add_missing_keys m = (m', r) ->
  match r with
  | Ok _ =>
      (forall k v, m !! k = Some v -> m' !! k = Some v)
      /\ (forall k, m !! k = None -> k ∈ STANDARD_FIELDS.*1 ->
          exists v, get_default_value k m = Ok v /\ m' !! k = Some v)
      /\ (forall k, m !! k = None -> k ∉ STANDARD_FIELDS.*1 -> m' !! k = None)
  | Raise e =>
      exists k, k ∈ STANDARD_FIELDS.*1 /\ m !! k = None
                /\ get_default_value k m = Raise e
  end.
Proof.
  rewrite add_missing_keys_eq. apply add_missing_keys_from_spec.
Qed.

(** *** What [clean_keys] removes *)

Lemma clean_keys_fold (valid keys : list string) (m : dict) (k : string) :
  foldl (fun m key => if bool_decide (key ∈ valid) then m else delete key m)
        m keys !! k
  = if decide (k ∈ keys /\ k ∉ valid) then None else m !! k.
Proof.
  revert m. induction keys as [|key keys IH]; intros m; cbn [foldl].
  - destruct (decide (k ∈ [] /\ k ∉ valid)) as [[H _]|]; [|done].
    by apply elem_of_nil in H.
  - rewrite IH.
    destruct (decide (k ∈ keys /\ k ∉ valid)) as [[Hin Hvalid] | Hrest].
    + destruct (decide (k ∈ key :: keys /\ k ∉ valid)) as [|Hno]; [done|].
      exfalso. apply Hno. split; [by right | done].
    + destruct (bool_decide (key ∈ valid)) eqn:Hkey.
      * apply bool_decide_eq_true in Hkey.
        destruct (decide (k ∈ key :: keys /\ k ∉ valid)) as [[Hin Hvalid]|]; [|done].
        exfalso. apply elem_of_cons in Hin as [-> | Hin]; [done|].
        apply Hrest. done.
      * apply bool_decide_eq_false in Hkey.
        destruct (decide (k = key)) as [-> | Hne].
        -- rewrite lookup_delete_eq.
           destruct (decide (key ∈ key :: keys /\ key ∉ valid)) as [|Hno]; [done|].
           exfalso. apply Hno. split; [by left | done].
        -- rewrite lookup_delete_ne by done.
           destruct (decide (k ∈ key :: keys /\ k ∉ valid)) as [[Hin Hvalid]|]; [|done].
           exfalso. apply elem_of_cons in Hin as [-> | Hin]; [done|].
           apply Hrest. done.
Qed.

(** [clean_keys] keeps the entries under standard keys and drops the rest. *)
Lemma clean_keys_lookup (m : dict) (k : string) :
  clean_keys m !! k = if decide (k ∈ STANDARD_FIELDS.*1) then m !! k else None.
Proof.
  unfold Metadata.clean_keys. rewrite clean_keys_fold.
  destruct (m !! k) as [v|] eqn:Hk.
  - assert (k ∈ (map_to_list m).*1) as Hin.
    { apply list_elem_of_fmap. exists (k, v). split; [done|].
      by apply elem_of_map_to_list. }
    destruct (decide (k ∈ (map_to_list m).*1 /\ k ∉ STANDARD_FIELDS.*1))
      as [[_ Hout] | Hno];
      destruct (decide (k ∈ STANDARD_FIELDS.*1)) as [Hstd | Hstd];
      try done; exfalso; tauto.
  - destruct (decide (k ∈ (map_to_list m).*1 /\ k ∉ STANDARD_FIELDS.*1));
      destruct (decide (k ∈ STANDARD_FIELDS.*1)); done.
Qed.

(** *** [convert_json] on a JSON object *)

Section ConvertJson.

Variable decode_utf8 : list byte -> result string.
Variable json_loads : string -> result dict.

Local Abbreviation convert_json :=
  (convert_json decode_utf8 json_loads dateutil_parse).

(** The three ways [convert_json] can end once decoding and parsing have
    given a JSON object [d]. *)
Lemma convert_json_object (b : list byte) (text : string) (d : dict) :
  decode_utf8 b = Ok text ->
  json_loads text = Ok d ->
  (exists k, k ∈ REQUIRED_KEYS /\ replace_aliases d !! k = None
             /\ convert_json b = Raise (mandatory_key_missing k))
  \/ ((forall k, k ∈ REQUIRED_KEYS -> is_Some (replace_aliases d !! k))
      /\ ((exists r, convert_json b = Ok r
                     /\ add_missing_keys (replace_aliases d) = (r, Ok tt))
          \/ (exists m e, add_missing_keys (replace_aliases d) = (m, Raise e)
                          /\ convert_json b =
                             Raise (Exn DecodeError
                                        ("Failed to add default values: '"
                                         +:+ exn_msg e +:+ "'"))))).
Proof.
  intros Hdecode Hloads. unfold Metadata.convert_json.
  rewrite Hdecode, Hloads.
  pose proof (first_missing_spec STANDARD_FIELDS.*1 (replace_aliases d)
                is_required_standard) as Hcheck.
  destruct (first_missing STANDARD_FIELDS.*1 (replace_aliases d)) as [[]|e].
  - right. split.
    { intros k Hk. apply required_keys_iff in Hk as [Hin Hreq]. eauto. }
    destruct (add_missing_keys (replace_aliases d)) as [m [[]|e]] eqn:Hadd.
    + left. eauto.
    + right. exists m, e. split; [done|]. by rewrite catches_exception.
  - left. destruct Hcheck as (k & Hin & Hreq & Hnone & ->).
    exists k. split; [|done]. apply required_keys_iff. done.
Qed.

(** C1.  The required fields are url, title, timestamp and license.  When
    the decoded JSON object lacks one of them after alias replacement,
    [convert_json] raises [FormatError] with the message "Mandatory key '...'
    missing" naming a required key that is missing; it names the given key
    when that is the only required key missing.  When [convert_json]
    succeeds, every required key is in the object, and in the result with
    the same value. *)
Theorem convert_json_missing_required (b : list byte) (text : string) (d : dict) :
  decode_utf8 b = Ok text ->
  json_loads text = Ok d ->
  REQUIRED_KEYS = ["url"; "title"; "timestamp"; "license"]
  /\ (forall key,
        key ∈ REQUIRED_KEYS ->
        replace_aliases d !! key = None ->
        exists missing,
          missing ∈ REQUIRED_KEYS
          /\ replace_aliases d !! missing = None
          /\ convert_json b =
               Raise (Exn FormatError ("Mandatory key '" +:+ missing +:+ "' missing"))
          /\ ((forall k, k ∈ REQUIRED_KEYS -> k <> key ->
                         is_Some (replace_aliases d !! k)) ->
              missing = key))
  /\ (forall r,
        convert_json b = Ok r ->
        forall key,
          key ∈ REQUIRED_KEYS ->
          is_Some (replace_aliases d !! key)
          /\ r !! key = replace_aliases d !! key).
Proof.
  intros Hdecode Hloads. split; [exact required_keys|].
  destruct (convert_json_object b text d Hdecode Hloads)
    as [(k & Hk & Hnone & Hraise) | [Hall Hrest]].
  - split.
    + intros key Hkey Hkeynone. exists k. repeat split; try done.
      intros Hothers. destruct (decide (k = key)) as [|Hne]; [done|].
      destruct (Hothers k Hk Hne) as [v Hv]. congruence.
    + intros r Hr. congruence.
  - split.
    + intros key Hkey Hnone. destruct (Hall key Hkey) as [v Hv]. congruence.
    + intros r Hr key Hkey. split; [by apply Hall|].
      destruct Hrest as [(r' & Hr' & Hadd) | (m & e & _ & Hraise)]; [|congruence].
      assert (r' = r) as -> by congruence.
      destruct (add_missing_keys_spec _ _ _ (Hall "timestamp" has_timestamp) Hadd)
        as (Hkeep & _).
      destruct (Hall key Hkey) as [v Hv]. rewrite Hv. by apply Hkeep.
Qed.

(** *** Keys outside the specification *)

(** C2, as the code has it.  [convert_json] strips nothing: when it succeeds,
    the result holds every entry of the alias-replaced input, and its keys
    are those of that input together with the standard fields.  Keys outside
    the specification go only when [clean_keys], which [convert_json] does
    not call, is applied: then exactly the standard fields remain, with
    their values. *)
Theorem convert_json_keeps_extra_keys (b : list byte) (text : string)
    (d r : dict) :
  decode_utf8 b = Ok text ->
  json_loads text = Ok d ->
  convert_json b = Ok r ->
  (forall k v, replace_aliases d !! k = Some v -> r !! k = Some v)
  /\ (forall k, is_Some (r !! k)
                <-> is_Some (replace_aliases d !! k) \/ k ∈ STANDARD_FIELDS.*1)
  /\ (forall k, is_Some (clean_keys r !! k) <-> k ∈ STANDARD_FIELDS.*1)
  /\ (forall k, k ∈ STANDARD_FIELDS.*1 -> clean_keys r !! k = r !! k).
Proof.
  intros Hdecode Hloads Hr.
  destruct (convert_json_object b text d Hdecode Hloads)
    as [(k & _ & _ & Hraise) | [Hall Hrest]]; [congruence|].
  destruct Hrest as [(r' & Hr' & Hadd) | (m & e & _ & Hraise)]; [|congruence].
  assert (r' = r) as -> by congruence.
  destruct (add_missing_keys_spec _ _ _ (Hall "timestamp" has_timestamp) Hadd)
    as (Hkeep & Hfill & Hrest).
  assert (forall k, is_Some (r !! k)
                    <-> is_Some (replace_aliases d !! k) \/ k ∈ STANDARD_FIELDS.*1)
    as Hkeys.
  { intros k. destruct (replace_aliases d !! k) as [v|] eqn:Hk.
    - rewrite (Hkeep k v Hk). split; [left|]; by eexists.
    - destruct (decide (k ∈ STANDARD_FIELDS.*1)) as [Hin | Hnotin].
      + destruct (Hfill k Hk Hin) as (v & _ & ->). split; [by right | by eexists].
      + rewrite (Hrest k Hk Hnotin). split; [by intros [? [=]]|].
        intros [[? [=]] | ?]; done. }
  split; [exact Hkeep|]. split; [exact Hkeys|]. split.
  - intros k. rewrite clean_keys_lookup. case_decide as Hin.
    + rewrite Hkeys. split; [done | by right].
    + split; [by intros [? [=]] | done].
  - intros k Hin. rewrite clean_keys_lookup. by case_decide.
Qed.

(** *** Defaults of the optional fields *)

(** C3, as the code has it.  Take a JSON object that has every required
    field once its aliases are replaced.  An optional field with a static
    default that the alias-replaced object lacks holds that default in the
    result.  When ['broadcast'] is missing, the result holds the date of the
    parsed ['timestamp'], and if parsing raises, [convert_json] raises
    [DecodeError] carrying the message.  Whatever makes a default fail, the
    exception that leaves [convert_json] is a [DecodeError]; entries the
    object has are returned as they are. *)
Theorem convert_json_fills_defaults (b : list byte) (text : string) (d : dict) :
  decode_utf8 b = Ok text ->
  json_loads text = Ok d ->
  (forall k, k ∈ REQUIRED_KEYS -> is_Some (replace_aliases d !! k)) ->
  (forall key spec dflt r,
     field_lookup key STANDARD_FIELDS = Some spec ->
     spec_get f_required false spec = false ->
     f_default spec = Some (Static dflt) ->
     replace_aliases d !! key = None ->
     convert_json b = Ok r ->
     r !! key = Some dflt)
  /\ (forall ts,
        replace_aliases d !! "broadcast" = None ->
        replace_aliases d !! "timestamp" = Some ts ->
        match dateutil_parse ts with
        | Ok dt =>
            exists r, convert_json b = Ok r
                      /\ r !! "broadcast" = Some (VDate (dt_date dt))
        | Raise e =>
            convert_json b =
              Raise (Exn DecodeError
                         ("Failed to add default values: '" +:+ exn_msg e +:+ "'"))
        end)
  /\ (is_Some (replace_aliases d !! "broadcast") ->
      exists r, convert_json b = Ok r)
  /\ (forall e, convert_json b = Raise e -> exn_class e = DecodeError)
  /\ (forall r k v,
        convert_json b = Ok r -> replace_aliases d !! k = Some v ->
        r !! k = Some v).
Proof.
  intros Hdecode Hloads Hall.
  pose proof (Hall "timestamp" has_timestamp) as Hts.
  assert (forall m' r, add_missing_keys (replace_aliases d) = (m', r) ->
            convert_json b =
              match r with
              | Ok _ => Ok m'
              | Raise e =>
                  Raise (Exn DecodeError
                             ("Failed to add default values: '" +:+ exn_msg e +:+ "'"))
              end) as Hrun.
  { intros m' r Hadd.
    destruct (convert_json_object b text d Hdecode Hloads)
      as [(k & Hk & Hnone & _) | [_ Hrest]].
    { destruct (Hall k Hk) as [v Hv]. congruence. }
    destruct Hrest as [(r' & -> & Hadd') | (m & e & Hadd' & ->)];
      rewrite Hadd in Hadd'; by injection Hadd' as -> ->. }
  destruct (add_missing_keys (replace_aliases d)) as [m' r] eqn:Hadd.
  pose proof (add_missing_keys_spec _ _ _ Hts Hadd) as Hspec.
  rewrite (Hrun m' r eq_refl). clear Hrun.
  assert (forall e k, r = Raise e -> k ∈ STANDARD_FIELDS.*1 ->
            replace_aliases d !! k = None ->
            get_default_value k (replace_aliases d) = Raise e ->
            k = "broadcast") as Honly.
  { intros e k _ Hin _ Hraise. rewrite standard_keys in Hin.
    elem_cases Hin; try discriminate Hraise; done. }
  split; [|split; [|split; [|split]]].
  - intros key spec dflt r' Hspec' Hreq Hdflt Hnone Hr'.
    destruct r as [[]|e]; [|discriminate]. injection Hr' as <-.
    destruct Hspec as (_ & Hfill & _).
    destruct (Hfill key Hnone) as (v & Hv & ->).
    { apply field_lookup_standard. by eexists. }
    unfold Metadata.get_default_value in Hv. rewrite Hspec', Hdflt in Hv.
    congruence.
  - intros ts Hnone Htimestamp.
    assert (get_default_value "broadcast" (replace_aliases d) =
            match dateutil_parse ts with
            | Ok dt => Ok (VDate (dt_date dt))
            | Raise e => Raise e
            end) as Hbroadcast.
    { unfold Metadata.get_default_value. simpl. unfold default_broadcast.
      by rewrite Htimestamp. }
    destruct r as [[]|e].
    + destruct Hspec as (_ & Hfill & _).
      destruct (Hfill "broadcast" Hnone) as (v & Hv & Hm').
      { rewrite standard_keys. elem_lit. }
      rewrite Hbroadcast in Hv.
      destruct (dateutil_parse ts) as [dt|e]; [|discriminate].
      injection Hv as <-. eauto.
    + destruct Hspec as (k & Hin & Hk & Hraise).
      pose proof (Honly e k eq_refl Hin Hk Hraise) as ->.
      rewrite Hbroadcast in Hraise.
      destruct (dateutil_parse ts) as [dt|e']; [discriminate|].
      by injection Hraise as ->.
  - intros [v Hv]. destruct r as [[]|e]; [eauto|].
    destruct Hspec as (k & Hin & Hk & Hraise).
    pose proof (Honly e k eq_refl Hin Hk Hraise) as ->. congruence.
  - intros e' He'. destruct r as [[]|e]; [discriminate|]. by injection He' as <-.
  - intros r' k v Hr' Hk. destruct r as [[]|e]; [|discriminate].
    injection Hr' as <-. destruct Hspec as (Hkeep & _). by apply Hkeep.
Qed.

End ConvertJson.

End NormalizerProperties.

(** ** The normaliser at the sample documents *)

Section NormalizerExamples.

Import Metadata Samples.

Local Abbreviation convert_json :=
  (Metadata.convert_json decode_utf8 json_loads dateutil_parse).
Local Abbreviation replace_aliases := (Metadata.replace_aliases dateutil_parse).

(** C4 at a record that has both aliases and neither canonical key. *)
Lemma replace_aliases_moves_alias_witness :
  field_lookup "publisher" (STANDARD_FIELDS dateutil_parse)
    = Some (FieldSpec None (Some (Static (VStr ""))) (Some ["partner"]) None)
  /\ "partner" ∈ ["partner"]
  /\ dict_of with_aliases !! "publisher" = None
  /\ replace_aliases (dict_of with_aliases) !! "publisher" = Some (VStr "Partner")
  /\ replace_aliases (dict_of with_aliases) !! "partner" = None.
Proof.
  split; [reflexivity|]. split; [elem_lit|]. split; [reflexivity|].
  destruct (replace_aliases_moves_alias dateutil_parse (dict_of with_aliases)
              "publisher" "partner"
              (FieldSpec None (Some (Static (VStr ""))) (Some ["partner"]) None))
    as (_ & Hmove & _); [reflexivity | elem_lit |].
  destruct Hmove as [-> ->]; [reflexivity|]. split; reflexivity.
Defined.

(** C1 at a document without a title: the error names the title. *)
Lemma convert_json_missing_required_witness :
  decode_utf8 (bytes_of untitled) = Ok (json_object untitled)
  /\ json_loads (json_object untitled) = Ok (dict_of untitled)
  /\ replace_aliases (dict_of untitled) !! "title" = None
  /\ convert_json (bytes_of untitled) =
       Raise (Exn FormatError "Mandatory key 'title' missing").
Proof.
  split; [reflexivity|]. split; [reflexivity|]. split; [reflexivity|].
  destruct (convert_json_missing_required dateutil_parse decode_utf8 json_loads
              (bytes_of untitled) (json_object untitled) (dict_of untitled))
    as (_ & Hmissing & _); [reflexivity | reflexivity |].
  destruct (Hmissing "title") as (missing & _ & _ & Hraise & Honly);
    [elem_lit | reflexivity |].
  rewrite Hraise, Honly; [reflexivity|].
  intros k Hk Hne. rewrite required_keys in Hk. elem_cases Hk.
  all: first [ exfalso; apply Hne; reflexivity
             | vm_compute; eexists; reflexivity ].
Defined.

(** C2 as stated fails: a key the specification does not know is still
    there when [convert_json] returns. *)
Lemma convert_json_does_not_strip :
  ~ (forall decode loads parse (b : list byte) (r : dict),
       Metadata.convert_json decode loads parse b = Ok r ->
       forall k, is_Some (r !! k) -> k ∈ (META_SPECIFICATION parse).*1).
Proof.
  intros Hclaim.
  specialize (Hclaim decode_utf8 json_loads dateutil_parse (bytes_of with_extra)
                (converted with_extra) eq_refl "foo").
  assert (is_Some (converted with_extra !! "foo")) as Hfoo.
  { vm_compute. eexists. reflexivity. }
  apply Hclaim, list_elem_of_In in Hfoo.
  vm_compute in Hfoo. intuition discriminate.
Qed.

(** C2, amended, at the same document. *)
Lemma convert_json_keeps_extra_keys_witness :
  decode_utf8 (bytes_of with_extra) = Ok (json_object with_extra)
  /\ json_loads (json_object with_extra) = Ok (dict_of with_extra)
  /\ convert_json (bytes_of with_extra) = Ok (converted with_extra)
  /\ converted with_extra !! "foo" = Some (VStr "bar")
  /\ clean_keys dateutil_parse (converted with_extra) !! "title"
     = converted with_extra !! "title".
Proof.
  split; [reflexivity|]. split; [reflexivity|]. split; [reflexivity|].
  destruct (convert_json_keeps_extra_keys dateutil_parse decode_utf8 json_loads
              (bytes_of with_extra) (json_object with_extra) (dict_of with_extra)
              (converted with_extra))
    as (Hkeep & _ & _ & Hclean); [reflexivity..|].
  split; [apply Hkeep; reflexivity | apply Hclean; elem_lit].
Defined.

(** C3 as stated fails: ['publisher'] is absent from the input, which has
    its alias ['partner'], and the result holds the alias's value, not the
    default. *)
Lemma convert_json_alias_beats_default :
  ~ (forall decode loads parse (b : list byte) (text : string) (d r : dict)
            (key : string) (spec : field_spec) (dflt : value),
       decode b = Ok text ->
       loads text = Ok d ->
       Metadata.convert_json decode loads parse b = Ok r ->
       field_lookup key (STANDARD_FIELDS parse) = Some spec ->
       spec_get f_required false spec = false ->
       f_default spec = Some (Static dflt) ->
       d !! key = None ->
       r !! key = Some dflt).
Proof.
  intros Hclaim.
  specialize (Hclaim decode_utf8 json_loads dateutil_parse (bytes_of with_aliases)
                (json_object with_aliases) (dict_of with_aliases)
                (converted with_aliases) "publisher"
                (FieldSpec None (Some (Static (VStr ""))) (Some ["partner"]) None)
                (VStr "")
                eq_refl eq_refl eq_refl eq_refl eq_refl eq_refl eq_refl).
  vm_compute in Hclaim. discriminate Hclaim.
Qed.

Lemma complete_has_required (k : string) :
  k ∈ REQUIRED_KEYS dateutil_parse ->
  is_Some (replace_aliases (dict_of complete) !! k).
Proof.
  intros Hk. rewrite required_keys in Hk. elem_cases Hk.
  all: vm_compute; eexists; reflexivity.
Defined.

(** C3, amended, at a document with the required fields only. *)
Lemma convert_json_fills_defaults_witness :
  decode_utf8 (bytes_of complete) = Ok (json_object complete)
  /\ json_loads (json_object complete) = Ok (dict_of complete)
  /\ (forall k, k ∈ REQUIRED_KEYS dateutil_parse ->
                is_Some (replace_aliases (dict_of complete) !! k))
  /\ (exists r, convert_json (bytes_of complete) = Ok r
                /\ r !! "broadcast" = Some (VDate (Date 2014 8 10)))
  /\ converted complete !! "images" = Some (VInt 0).
Proof.
  split; [reflexivity|]. split; [reflexivity|].
  split; [exact complete_has_required|].
  destruct (convert_json_fills_defaults dateutil_parse decode_utf8 json_loads
              (bytes_of complete) (json_object complete) (dict_of complete))
    as (Hstatic & Hbroadcast & _);
    [reflexivity | reflexivity | exact complete_has_required |].
  split.
  - exact (Hbroadcast (VStr "2014-08-10 19:59:19 UTC") eq_refl eq_refl).
  - apply (Hstatic "images" (spec_default (VInt 0))); reflexivity.
Defined.

(** A timestamp that does not parse: the default of ['broadcast'] raises and
    [convert_json] raises [DecodeError]. *)
Example convert_json_undated :
  convert_json (bytes_of undated) =
    Raise (Exn DecodeError "Failed to add default values: 'Unknown string format'").
Proof. reflexivity. Qed.

End NormalizerExamples.

(** ** The archive at the sample database *)

Section ArchiveExamples.

Import Metadata EmbeddedArchive Samples.

Example add_view_known :
  (add_view "def" (archive, tt)).2 = Ok 1
  /\ zipballs (add_view "def" (archive, tt)).1.1
     = [Zipball "abc" 0 {[ "a" := 1 ]}; Zipball "def" 8 ∅].
Proof. split; reflexivity. Qed.

Example add_view_unknown :
  (add_view "0123" (archive, tt)).2
    = Raise (Exn AssertionError "Updated more than one row")
  /\ rowcount (add_view "0123" (archive, tt)).1.1 = 0
  /\ zipballs (add_view "0123" (archive, tt)).1.1 = zipballs archive.
Proof. repeat split; reflexivity. Qed.

Example add_tags_sends_statements :
  executed (add_tags ["b"] (archive, content)).1.1
  = [ Begin; InsertTag "b"; Commit; SelectTags ["b"];
      Begin; InsertTagging 2 "abc"; UpdateTags "abc" {[ "b" := 2 ]}; Commit ].
Proof. vm_compute. reflexivity. Qed.

End ArchiveExamples.

(** * Further properties *)

(** ** The metadata wrapper: licence, language attributes, dictionary access *)

Section WrapperAccess.

Import Metadata.


(** X2.  [i18n_attrs] is the empty string exactly when the record's
    language is falsy (missing, [None], empty).  A right-to-left record always has a
    language, so the [dir] attribute never comes without the [lang]
    attribute before it. *)
Theorem i18n_attrs_empty_iff_no_language (rt : runtime) (self : Meta) :
  (i18n_attrs self rt = "" <-> truthy (lang self) = false)
  /\ (rtl self = true ->
      truthy (lang self) = true
      /\ i18n_attrs self rt =
           (" lang=" +:+ dquote +:+ format_s rt (lang self) +:+ dquote)
           +:+ " dir=" +:+ dquote +:+ "rtl" +:+ dquote).
Proof.
  assert (rtl self = true -> truthy (lang self) = true) as Hrtl.
  { unfold rtl. rewrite in_strs_iff. intros (s & -> & Hin). simpl in Hin.
    destruct Hin as [<- | [<- | [<- | [<- | [<- | [<- | [<- | []]]]]]]]; reflexivity. }
  unfold i18n_attrs. split.
  - destruct (rtl self) eqn:Hr.
    + rewrite (Hrtl eq_refl). split; discriminate.
    + destruct (truthy (lang self)); split; try reflexivity; discriminate.
  - intros Hr. rewrite (Hrtl Hr), Hr. split; reflexivity.
Qed.


End WrapperAccess.

(** ** The metadata wrapper: cover images *)

Section CoverProperties.

Import Metadata.

(** Is the member [name] of a zip file a picture, by its extension? *)
Local Abbreviation picture name :=
  (lower (splitext_ext name) ∈ IMAGE_EXTENSIONS).

Lemma first_image_skips (before rest : list (string * result (list byte))) :
  Forall (fun m => ~ picture m.1) before ->
  first_image (before ++ rest)%list = first_image rest.
Proof.
  induction 1 as [|[name data] before Hname _ IH]; [done|].
  simpl. by rewrite bool_decide_eq_false_2.
Qed.

Lemma first_image_result (members : list (string * result (list byte)))
    (e : option string) (c : option (list byte)) :
  first_image members = Ok (e, c) ->
  (e = None /\ c = None /\ Forall (fun m => ~ picture m.1) members)
  \/ (exists ext content, e = Some ext /\ c = Some content
                          /\ ext ∈ IMAGE_EXTENSIONS).
Proof.
  induction members as [|[name data] members IH]; simpl.
  - intros [= <- <-]. left. done.
  - case_bool_decide as Hname.
    + destruct data as [content|err]; [|done]. intros [= <- <-]. right. eauto.
    + intros Hrest. destruct (IH Hrest) as [(-> & -> & Hall) | ?]; [left | by right].
      repeat split. by constructor.
Qed.

(** X4.  [extract_image] returns the first member of the zip file, in the
    order of its name list, whose extension is one of '.png', '.gif', '.jpg',
    '.jpeg' whatever its letter case: the lower-cased extension and the
    content of that member.  Members before it are not read; a failure to
    read the member itself is raised. *)
Theorem extract_image_first_picture (rt : runtime) (self : Meta) (path : string)
    (before after : list (string * result (list byte))) (name : string)
    (data : result (list byte)) :
  zip_path self = Some path ->
  open_zip rt path = Ok (before ++ (name, data) :: after)%list ->
  Forall (fun m => ~ picture m.1) before ->
  picture name ->
  extract_image rt self =
    match data with
    | Ok content => Ok (Some (lower (splitext_ext name)), Some content)
    | Raise e => Raise e
    end.
Proof.
  intros Hpath Hopen Hbefore Hname. unfold extract_image.
  rewrite Hpath, Hopen, (first_image_skips _ _ Hbefore). simpl.
  by rewrite bool_decide_eq_true_2.
Qed.

(** X5.  When the zip file opens, [extract_image] answers [(None, None)] if
    no member has a picture extension, and whenever it returns, it returns
    either that or an extension from [IMAGE_EXTENSIONS] together with a
    content: never one without the other. *)
Theorem extract_image_none_or_picture (rt : runtime) (self : Meta) (path : string)
    (members : list (string * result (list byte))) :
  zip_path self = Some path ->
  open_zip rt path = Ok members ->
  (Forall (fun m => ~ picture m.1) members ->
   extract_image rt self = Ok (None, None))
  /\ (forall e c,
        extract_image rt self = Ok (e, c) ->
        (e = None /\ c = None /\ Forall (fun m => ~ picture m.1) members)
        \/ (exists ext content, e = Some ext /\ c = Some content
                                /\ ext ∈ IMAGE_EXTENSIONS)).
Proof.
  intros Hpath Hopen. unfold extract_image. rewrite Hpath, Hopen. split.
  - intros Hnone. rewrite <- (app_nil_r members).
    by rewrite (first_image_skips _ _ Hnone).
  - intros e c. apply first_image_result.
Qed.

End CoverProperties.

Section ImageProperties.

Import Metadata.





(** X7.  A cover file in the cover directory wins over the zip file: with no
    cached name, [image] returns the base name of the first file that
    [glob] finds under the record's md5 with any extension and caches it,
    whether or not the record has a zip path and whatever opening the zip
    file would do. *)
Theorem image_cover_on_disk (rt : runtime) (self : Meta) (md5 : value)
    (found : string) (others : list string) :
  _image self = None ->
  meta self !! "md5" = Some md5 ->
  glob_glob rt (path_join (cover_dir self) (format_s rt md5 +:+ ".*"))
    = found :: others ->
  basename found <> "" ->
  image rt self =
    (set_image self (Some (basename found)), Ok (Some (basename found))).
Proof.
  intros Himg Hmd5 Hglob Hname. unfold image, get_cover_path, getattr.
  rewrite Himg, Hmd5, Hglob. simpl.
  destruct (String.eqb_spec (basename found) ""); done.
Qed.


(** X9.  Once an image has been extracted, a failure to write the cover is
    swallowed only if it is an [OSError]: [image] then returns [None] and
    caches nothing.  Any other exception from [cache_cover] is raised.  When
    the cover is written, its file name is returned and cached. *)
Theorem image_after_extraction (rt : runtime) (self : Meta) (md5 : value)
    (extension : string) (content : list byte) :
  _image self = None ->
  meta self !! "md5" = Some md5 ->
  glob_glob rt (path_join (cover_dir self) (format_s rt md5 +:+ ".*")) = [] ->
  str_truthy (zip_path self) = true ->
  extract_image rt self = Ok (Some extension, Some content) ->
  image rt self =
    match cache_cover rt self extension content with
    | Ok name => (set_image self (Some name), Ok (Some name))
    | Raise e => (self, if catches [OSError] e then Ok None else Raise e)
    end.
Proof.
  intros Himg Hmd5 Hglob Hzip Hextract.
  unfold image, get_cover_path, getattr.
  rewrite Himg, Hmd5, Hglob. simpl. rewrite Hzip. simpl. rewrite Hextract.
  destruct (cache_cover rt self extension content) as [name|e]; [done|].
  by destruct (_ || _).
Qed.

(** X10.  With no cached name, no cover on disk and a zip path, an
    exception from [extract_image] is swallowed exactly when it is a
    [TypeError] or an [OSError] (or a subclass of one): [image] then returns
    [None] and leaves the wrapper as it was.  Every other exception, the
    [IOError] of a missing file among them, is raised to the caller. *)
Theorem image_swallows_type_and_os_errors (rt : runtime) (self : Meta)
    (md5 : value) (e : exn) :
  _image self = None ->
  meta self !! "md5" = Some md5 ->
  glob_glob rt (path_join (cover_dir self) (format_s rt md5 +:+ ".*")) = [] ->
  str_truthy (zip_path self) = true ->
  extract_image rt self = Raise e ->
  (issubclass (exn_class e) TypeError || issubclass (exn_class e) OSError = true ->
   image rt self = (self, Ok None))
  /\ (issubclass (exn_class e) TypeError || issubclass (exn_class e) OSError = false ->
      image rt self = (self, Raise e))
  /\ (exn_class e = IOError -> image rt self = (self, Raise e)).
Proof.
  intros Himg Hmd5 Hglob Hzip Hextract.
  rewrite (image_when_extraction_raises rt self md5 e Himg Hmd5 Hglob Hzip Hextract).
  unfold catches. simpl. rewrite orb_false_r.
  split; [by intros ->|]. split; [by intros ->|]. by intros ->.
Qed.

End ImageProperties.

(** ** The wrapper at the sample records *)

Section WrapperExamples.

Import Metadata Samples.

(** X4 at a zip file with a page before its first picture. *)
Lemma extract_image_first_picture_witness :
  zip_path content = Some "content/abc.zip"
  /\ open_zip with_zip "content/abc.zip"
     = Ok ([("index.html", Ok [x3c])]
           ++ ("img/Logo.PNG", Ok [x89; x50]) :: [("photo.jpg", Ok [xff])])%list
  /\ extract_image with_zip content = Ok (Some ".png", Some [x89; x50]).
Proof.
  split; [reflexivity|]. split; [reflexivity|].
  apply (extract_image_first_picture with_zip content "content/abc.zip"
           [("index.html", Ok [x3c])] [("photo.jpg", Ok [xff])]
           "img/Logo.PNG" (Ok [x89; x50]));
    [reflexivity | reflexivity | | is_picture].
  constructor; [not_picture | constructor].
Defined.

(** X5 at the same zip file: a picture is found, with its content. *)
Lemma extract_image_none_or_picture_witness :
  zip_path content = Some "content/abc.zip"
  /\ (exists members, open_zip with_zip "content/abc.zip" = Ok members)
  /\ exists ext data,
       extract_image with_zip content = Ok (Some ext, Some data)
       /\ ext ∈ IMAGE_EXTENSIONS.
Proof.
  split; [reflexivity|]. split; [by eexists|].
  destruct (extract_image_none_or_picture with_zip content "content/abc.zip"
              [ ("index.html", Ok [x3c]); ("img/Logo.PNG", Ok [x89; x50]);
                ("photo.jpg", Ok [xff]) ] eq_refl eq_refl) as [_ Hresult].
  destruct (Hresult (Some ".png") (Some [x89; x50]) eq_refl)
    as [(Hnone & _) | (ext & data & [= <-] & [= <-] & Hext)]; [discriminate|].
  exists ".png", [x89; x50]. split; [reflexivity | exact Hext].
Defined.


(** X7 at a machine that has the cover on disk and no zip file. *)
Lemma image_cover_on_disk_witness :
  _image content = None
  /\ meta content !! "md5" = Some (VStr "abc")
  /\ glob_glob with_cover "covers/abc.*" = ["covers/abc.jpg"]
  /\ basename "covers/abc.jpg" <> ""
  /\ image with_cover content
     = (set_image content (Some "abc.jpg"), Ok (Some "abc.jpg")).
Proof.
  split; [reflexivity|]. split; [reflexivity|]. split; [reflexivity|].
  split; [discriminate|].
  apply (image_cover_on_disk with_cover content (VStr "abc")
           "covers/abc.jpg" []); [reflexivity.. | discriminate].
Defined.


(** X9 at a record whose cover can be written. *)
Lemma image_after_extraction_witness :
  _image content = None
  /\ meta content !! "md5" = Some (VStr "abc")
  /\ glob_glob with_zip "covers/abc.*" = []
  /\ str_truthy (zip_path content) = true
  /\ extract_image with_zip content = Ok (Some ".png", Some [x89; x50])
  /\ cache_cover with_zip content ".png" [x89; x50] = Ok "abc.png"
  /\ image with_zip content
     = (set_image content (Some "abc.png"), Ok (Some "abc.png")).
Proof.
  repeat (split; [reflexivity|]).
  exact (image_after_extraction with_zip content (VStr "abc") ".png" [x89; x50]
           eq_refl eq_refl eq_refl eq_refl eq_refl).
Defined.

(** X10 at a machine on which opening the zip file raises [OSError]. *)
Lemma image_swallows_type_and_os_errors_witness :
  _image content = None
  /\ meta content !! "md5" = Some (VStr "abc")
  /\ glob_glob failing_disk "covers/abc.*" = []
  /\ str_truthy (zip_path content) = true
  /\ extract_image failing_disk content
     = Raise (Exn OSError "[Errno 5] Input/output error")
  /\ image failing_disk content = (content, Ok None).
Proof.
  repeat (split; [reflexivity|]).
  destruct (image_swallows_type_and_os_errors failing_disk content (VStr "abc")
              (Exn OSError "[Errno 5] Input/output error")
              eq_refl eq_refl eq_refl eq_refl eq_refl) as (Hswallowed & _).
  exact (Hswallowed eq_refl).
Defined.

End WrapperExamples.

(** ** The archive index: what the tag operations do to the tables *)

Section TagTables.

Import Metadata EmbeddedArchive.

Lemma insert_taggings_run (ids : list Z) (s : state) (h : string) :
  meta s.2 !! "md5" = Some (VStr h) ->
  insert_taggings ids s =
    ((run_all (map (fun i => InsertTagging i h) ids) s.1, s.2), Ok tt).
Proof.
  intros Hmd5. revert s Hmd5. induction ids as [|i ids IH]; intros [db m] Hmd5.
  - reflexivity.
  - cbn [insert_taggings].
    rewrite (bind_ok _ _ _ _ _ (meta_md5_ok (db, m) h Hmd5)).
    unfold bind at 1, query, modify. cbn [fst snd].
    by rewrite IH.
Qed.

Lemma update_zipball_tags_run (s : state) (h : string) :
  meta s.2 !! "md5" = Some (VStr h) ->
  update_zipball_tags s =
    ((record (UpdateTags h (Metadata.tags s.2))
        (effect (UpdateTags h (Metadata.tags s.2)) s.1), s.2), Ok tt).
Proof.
  intros Hmd5. unfold update_zipball_tags.
  rewrite (bind_ok _ _ _ _ _ (meta_md5_ok s h Hmd5)).
  unfold bind, gets, query, modify. by destruct s.
Qed.

(** The state [add_tags] leaves, written out. *)
Lemma add_tags_eq (tags : list string) (db : database) (m : Meta) (h : string) :
  tags <> [] ->
  meta m !! "md5" = Some (VStr h) ->
  let db1 := record (SelectTags tags)
               (effect (SelectTags tags)
                  (record Commit (run_all (map InsertTag tags) (record Begin db)))) in
  let rows := List.filter (fun r => str_in (name r) tags) (tag_rows db1) in
  let m1 := set_tags m (tags_dict rows ∪ Metadata.tags m) in
  let db2 := run_all (map (fun i => InsertTagging i h) (map tag_id rows))
               (record Begin db1) in
  add_tags tags (db, m) =
    ((record Commit
        (record (UpdateTags h (Metadata.tags m1))
           (effect (UpdateTags h (Metadata.tags m1)) db2)), m1),
     Ok (Some rows)).
Proof.
  intros Hne Hmd5 db1 rows m1 db2. destruct tags as [|t0 ts]; [done|]. clear Hne.
  unfold add_tags. set (T := t0 :: ts) in *.
  erewrite bind_ok; [|apply transaction_ok, executemany_run].
  unfold bind at 1, query at 1, modify at 1.
  unfold bind at 1, results at 1, gets at 1.
  unfold bind at 1, modify at 1. cbn [fst snd].
  fold db1. fold rows. fold m1.
  erewrite bind_ok; [reflexivity|].
  apply (transaction_ok _ (db1, m1)
           (record (UpdateTags h (Metadata.tags m1))
              (effect (UpdateTags h (Metadata.tags m1)) db2), m1) tt).
  erewrite bind_ok; [|by apply insert_taggings_run].
  by apply update_zipball_tags_run.
Qed.

(** The state [remove_tags] leaves, written out. *)
Lemma remove_tags_eq (tags : list string) (db : database) (m : Meta)
    (h : string) (ids : list Z) :
  tags <> [] ->
  meta m !! "md5" = Some (VStr h) ->
  tag_ids_of (Metadata.tags m) tags = Ok ids ->
  let m1 := set_tags m (filter (fun kv => negb (str_in kv.1 tags))
                               (Metadata.tags m)) in
  let db1 := record (DeleteTaggings h ids)
               (effect (DeleteTaggings h ids) (record Begin db)) in
  remove_tags tags (db, m) =
    ((record Commit
        (record (UpdateTags h (Metadata.tags m1))
           (effect (UpdateTags h (Metadata.tags m1)) db1)), m1),
     Ok tt).
Proof.
  intros Hne Hmd5 Hids m1 db1. destruct tags as [|t0 ts]; [done|]. clear Hne.
  unfold remove_tags. set (T := t0 :: ts) in *.
  rewrite (bind_ok (meta_tag_ids T) _ (db, m) (db, m) ids);
    [|unfold meta_tag_ids; cbn [snd]; by rewrite Hids].
  unfold bind at 1, modify at 1. cbn [fst snd]. fold m1.
  apply (transaction_ok _ (db, m1)
           (record (UpdateTags h (Metadata.tags m1))
              (effect (UpdateTags h (Metadata.tags m1)) db1), m1) tt).
  erewrite bind_ok; [|by apply meta_md5_ok].
  unfold bind at 1, query at 1, modify at 1. cbn [fst snd].
  by apply update_zipball_tags_run.
Qed.

End TagTables.

Section TagProperties.

Import Metadata EmbeddedArchive.

Lemma run_all_cons (q : statement) (qs : list statement) (db : database) :
  run_all (q :: qs) db = run_all qs (record q (effect q db)).
Proof. reflexivity. Qed.

Lemma insert_tags_frame (ns : list string) (db : database) :
  zipballs (run_all (map InsertTag ns) db) = zipballs db
  /\ taggings (run_all (map InsertTag ns) db) = taggings db.
Proof.
  revert db. induction ns as [|n ns IH]; intros db; [done|].
  cbn [map]. rewrite run_all_cons.
  destruct (IH (record (InsertTag n) (effect (InsertTag n) db))) as [-> ->].
  cbn [effect]. by destruct (has_tag n (tag_rows db)).
Qed.

(** Inserting tag names appends rows for the names that had none. *)
Lemma insert_tags_rows (ns : list string) (db : database) :
  exists new,
    tag_rows (run_all (map InsertTag ns) db) = (tag_rows db ++ new)%list
    /\ Forall (fun r => name r ∈ ns /\ has_tag (name r) (tag_rows db) = false) new.
Proof.
  revert db. induction ns as [|n ns IH]; intros db.
  - exists []. split; [by rewrite app_nil_r | constructor].
  - cbn [map]. rewrite run_all_cons.
    destruct (IH (record (InsertTag n) (effect (InsertTag n) db)))
      as (new & -> & Hnew).
    cbn [effect record tag_rows] in *.
    destruct (has_tag n (tag_rows db)) eqn:Hn; cbn [tag_rows] in *.
    + exists new. split; [done|].
      eapply Forall_impl; [exact Hnew|]. intros r [Hr ?]. split; [by right | done].
    + exists (TagRow (next_tag_id (tag_rows db)) n :: new).
      split; [by rewrite <- app_assoc|]. constructor.
      * split; [by left | done].
      * eapply Forall_impl; [exact Hnew|]. intros r [Hr Hfresh].
        split; [by right|]. rewrite has_tag_app in Hfresh.
        by apply orb_false_iff in Hfresh as [? _].
Qed.

Lemma next_tag_id_fresh (rows : list tag_row) (r : tag_row) :
  r ∈ rows -> tag_id r < next_tag_id rows.
Proof.
  unfold next_tag_id. induction rows as [|x rows IH]; intros Hin.
  - by apply elem_of_nil in Hin.
  - simpl. apply elem_of_cons in Hin as [-> | Hin]; [lia|].
    specialize (IH Hin). lia.
Qed.

(** The tags table keeps names and ids unique. *)
Lemma insert_tags_nodup (ns : list string) (db : database) :
  NoDup (map name (tag_rows db)) ->
  NoDup (map tag_id (tag_rows db)) ->
  NoDup (map name (tag_rows (run_all (map InsertTag ns) db)))
  /\ NoDup (map tag_id (tag_rows (run_all (map InsertTag ns) db))).
Proof.
  revert db. induction ns as [|n ns IH]; intros db Hnames Hids; [done|].
  cbn [map]. rewrite run_all_cons.
  apply IH; cbn [effect record tag_rows];
    destruct (has_tag n (tag_rows db)) eqn:Hn; cbn [tag_rows]; try done.
  - rewrite map_app. apply NoDup_app. split; [done|]. split.
    + intros x Hx Hx'. apply list_elem_of_singleton in Hx'. subst x.
      apply list_elem_of_fmap in Hx as (r & Hname & Hr).
      assert (has_tag n (tag_rows db) = true) as Habs; [|congruence].
      apply has_tag_iff. eauto.
    + apply NoDup_singleton.
  - rewrite map_app. apply NoDup_app. split; [done|]. split.
    + intros x Hx Hx'. apply list_elem_of_singleton in Hx'. subst x.
      apply list_elem_of_fmap in Hx as (r & Hid & Hr).
      apply next_tag_id_fresh in Hr. simpl in Hid. lia.
    + apply NoDup_singleton.
Qed.

(** Inserting taggings for one content adds exactly the missing pairs. *)
Lemma insert_taggings_tables (ids : list Z) (h : string) (db : database) :
  zipballs (run_all (map (fun i => InsertTagging i h) ids) db) = zipballs db
  /\ tag_rows (run_all (map (fun i => InsertTagging i h) ids) db) = tag_rows db
  /\ forall g, g ∈ taggings (run_all (map (fun i => InsertTagging i h) ids) db)
               <-> g ∈ taggings db \/ exists i, i ∈ ids /\ g = Tagging i h.
Proof.
  revert db. induction ids as [|i ids IH]; intros db.
  - split; [done|]. split; [done|]. intros g. split; [by left|].
    intros [? | (i & Hi & _)]; [done | by apply elem_of_nil in Hi].
  - cbn [map]. rewrite run_all_cons.
    destruct (IH (record (InsertTagging i h) (effect (InsertTagging i h) db)))
      as (-> & -> & Hrest).
    split; [cbn [effect]; by case_bool_decide|].
    split; [cbn [effect]; by case_bool_decide|].
    intros g. rewrite Hrest. cbn [effect record].
    case_bool_decide as Hin; cbn [record taggings].
    + split.
      * intros [? | (j & Hj & ->)]; [by left|]. right. exists j. split; [by right | done].
      * intros [? | (j & Hj & ->)]; [by left|].
        apply elem_of_cons in Hj as [-> | Hj]; [by left|]. right. eauto.
    + rewrite elem_of_app, list_elem_of_singleton. split.
      * intros [[? | ->] | (j & Hj & ->)].
        -- by left.
        -- right. exists i. split; [by left | done].
        -- right. exists j. split; [by right | done].
      * intros [? | (j & Hj & ->)]; [by left; left|].
        apply elem_of_cons in Hj as [-> | Hj]; [left; by right|]. right. eauto.
Qed.

End TagProperties.

Section TagTheorems.

Import Metadata EmbeddedArchive.

(** Everything the later statements need to know about a successful
    [add_tags]. *)
Lemma add_tags_result (tags : list string) (db : database) (m : Meta) (h : string) :
  tags <> [] ->
  meta m !! "md5" = Some (VStr h) ->
  exists db' rows,
    add_tags tags (db, m) =
      ((db', set_tags m (tags_dict rows ∪ Metadata.tags m)), Ok (Some rows))
    /\ rows = List.filter (fun r => str_in (name r) tags) (tag_rows db')
    /\ tag_rows db' = tag_rows (run_all (map InsertTag tags) (record Begin db))
    /\ zipballs db' =
         map (store_tags h (tags_dict rows ∪ Metadata.tags m)) (zipballs db)
    /\ (forall g, g ∈ taggings db'
                  <-> g ∈ taggings db \/ exists i, i ∈ map tag_id rows /\ g = Tagging i h).
Proof.
  intros Hne Hmd5. pose proof (add_tags_eq tags db m h Hne Hmd5) as Heq.
  cbv zeta in Heq.
  set (db0 := run_all (map InsertTag tags) (record Begin db)) in *.
  set (db1 := record (SelectTags tags) (effect (SelectTags tags) (record Commit db0)))
    in *.
  set (rows := List.filter (fun r => str_in (name r) tags) (tag_rows db1)) in *.
  set (m1 := set_tags m (tags_dict rows ∪ Metadata.tags m)) in *.
  set (db2 := run_all (map (fun i => InsertTagging i h) (map tag_id rows))
                (record Begin db1)) in *.
  destruct (insert_taggings_tables (map tag_id rows) h (record Begin db1))
    as (Hzip & Hrows & Htaggings). fold db2 in Hzip, Hrows, Htaggings.
  destruct (insert_tags_frame tags (record Begin db)) as [Hzip0 Htag0].
  fold db0 in Hzip0, Htag0.
  eexists _, rows. split; [exact Heq|].
  cbn [effect record tag_rows zipballs taggings].
  split; [by rewrite Hrows|]. split; [by rewrite Hrows|]. split.
  - rewrite Hzip. unfold db1. cbn [record effect zipballs]. by rewrite Hzip0.
  - intros g. rewrite Htaggings. unfold db1. cbn [record effect taggings].
    by rewrite Htag0.
Qed.

Lemma tags_dict_lookup (rows : list tag_row) (n : string) (i : Z) :
  tags_dict rows !! n = Some i ->
  exists r, r ∈ rows /\ name r = n /\ tag_id r = i.
Proof.
  unfold tags_dict.
  assert (forall m : gmap string Z,
            foldl (fun m t => <[name t := tag_id t]> m) m rows !! n = Some i ->
            m !! n = Some i \/ exists r, r ∈ rows /\ name r = n /\ tag_id r = i)
    as Hgen.
  { induction rows as [|r rows IH]; intros m; simpl; [by left|].
    intros Hlookup. destruct (IH _ Hlookup) as [Hm | (r' & Hr' & ?)].
    - destruct (decide (name r = n)) as [Hname | Hname].
      + rewrite <- Hname, lookup_insert_eq in Hm. injection Hm as <-.
        right. exists r. split; [by left | done].
      + rewrite lookup_insert_ne in Hm by done. by left.
    - right. exists r'. split; [by right | done]. }
  intros Hlookup. destruct (Hgen ∅ Hlookup) as [Hempty | ?]; [|done].
  by rewrite lookup_empty in Hempty.
Qed.

(** X11.  [add_tags] makes sure every requested tag has a row in the tags
    table (whose rows it returns), by appending rows for the names that had
    none: rows that were there keep their place and their id. *)
Theorem add_tags_registers_tags (tags : list string) (db : database) (m : Meta)
    (h : string) :
  tags <> [] ->
  meta m !! "md5" = Some (VStr h) ->
  exists s' rows new,
    add_tags tags (db, m) = (s', Ok (Some rows))
    /\ tag_rows s'.1 = (tag_rows db ++ new)%list
    /\ Forall (fun r => name r ∈ tags /\ has_tag (name r) (tag_rows db) = false) new
    /\ (forall n, n ∈ tags -> has_tag n (tag_rows s'.1) = true)
    /\ (forall r, r ∈ rows <-> r ∈ tag_rows s'.1 /\ name r ∈ tags).
Proof.
  intros Hne Hmd5.
  destruct (add_tags_result tags db m h Hne Hmd5)
    as (db' & rows & Heq & Hrows & Htable & _).
  destruct (insert_tags_rows tags (record Begin db)) as (new & Hnew & Hfresh).
  exists (db', set_tags m (tags_dict rows ∪ Metadata.tags m)), rows, new.
  split; [exact Heq|]. cbn [fst]. rewrite Htable.
  split; [exact Hnew|]. split; [exact Hfresh|]. split.
  - intros n Hn. apply insert_tags_ensures. by left.
  - intros r. rewrite Hrows, Htable, list_elem_of_In, filter_In.
    by rewrite <- list_elem_of_In, str_in_iff.
Qed.

(** X12.  If tag names and tag ids are unique in the tags table before
    [add_tags], they are unique after it. *)
Theorem add_tags_keeps_tags_unique (tags : list string) (db : database)
    (m : Meta) (h : string) :
  tags <> [] ->
  meta m !! "md5" = Some (VStr h) ->
  NoDup (map name (tag_rows db)) ->
  NoDup (map tag_id (tag_rows db)) ->
  exists s' rows,
    add_tags tags (db, m) = (s', Ok (Some rows))
    /\ NoDup (map name (tag_rows s'.1))
    /\ NoDup (map tag_id (tag_rows s'.1)).
Proof.
  intros Hne Hmd5 Hnames Hids.
  destruct (add_tags_result tags db m h Hne Hmd5)
    as (db' & rows & Heq & _ & Htable & _).
  eexists _, rows. split; [exact Heq|]. cbn [fst]. rewrite Htable.
  by apply insert_tags_nodup.
Qed.

(** X13.  After [add_tags], [meta.tags] maps every requested name to the id
    of a row of the tags table with that name, and is unchanged on all other
    names. *)
Theorem add_tags_updates_meta_tags (tags : list string) (db : database)
    (m : Meta) (h : string) :
  tags <> [] ->
  meta m !! "md5" = Some (VStr h) ->
  exists s' rows,
    add_tags tags (db, m) = (s', Ok (Some rows))
    /\ (forall n, n ∈ tags ->
          exists r, r ∈ tag_rows s'.1 /\ name r = n
                    /\ Metadata.tags s'.2 !! n = Some (tag_id r))
    /\ (forall n, n ∉ tags -> Metadata.tags s'.2 !! n = Metadata.tags m !! n)
    /\ meta s'.2 = meta m.
Proof.
  intros Hne Hmd5.
  destruct (add_tags_result tags db m h Hne Hmd5)
    as (db' & rows & Heq & Hrows & Htable & _).
  assert (forall n, is_Some (tags_dict rows !! n) <-> n ∈ tags) as Hdom.
  { intros n. rewrite tags_dict_dom, Hrows, has_tag_selected, Htable.
    split; [by intros [? _]|]. intros Hn. split; [done|].
    apply insert_tags_ensures. by left. }
  eexists _, rows. split; [exact Heq|]. cbn [fst snd set_tags Metadata.tags meta].
  split; [|split; [|done]].
  - intros n Hn. apply Hdom in Hn as [i Hi].
    destruct (tags_dict_lookup rows n i Hi) as (r & Hr & Hname & Hid).
    exists r. split; [|split; [done|]].
    + rewrite Hrows in Hr. by apply list_elem_of_In, filter_In in Hr as [?%list_elem_of_In _].
    + rewrite lookup_union, Hi, Hid. by destruct (Metadata.tags m !! n).
  - intros n Hn. rewrite lookup_union.
    assert (tags_dict rows !! n = None) as ->.
    { apply eq_None_not_Some. by rewrite Hdom. }
    by destruct (Metadata.tags m !! n).
Qed.

Lemma add_tags_updates_meta_tags_aux (tags : list string) (db : database)
    (m : Meta) (h : string) :
  tags <> [] ->
  meta m !! "md5" = Some (VStr h) ->
  exists db' rows,
    add_tags tags (db, m) =
      ((db', set_tags m (tags_dict rows ∪ Metadata.tags m)), Ok (Some rows))
    /\ (forall g, g ∈ taggings db'
                  <-> g ∈ taggings db \/ exists i, i ∈ map tag_id rows /\ g = Tagging i h)
    /\ (forall n, n ∈ tags ->
          exists r, r ∈ rows /\ name r = n
                    /\ (tags_dict rows ∪ Metadata.tags m) !! n = Some (tag_id r)).
Proof.
  intros Hne Hmd5.
  destruct (add_tags_result tags db m h Hne Hmd5)
    as (db' & rows & Heq & Hrows & Htable & _ & Htaggings).
  exists db', rows. split; [exact Heq|]. split; [exact Htaggings|].
  intros n Hn.
  assert (is_Some (tags_dict rows !! n)) as [i Hi].
  { rewrite tags_dict_dom, Hrows, has_tag_selected, Htable. split; [done|].
    apply insert_tags_ensures. by left. }
  destruct (tags_dict_lookup rows n i Hi) as (r & Hr & Hname & Hid).
  exists r. split; [done|]. split; [done|].
  rewrite lookup_union, Hi, Hid. by destruct (Metadata.tags m !! n).
Qed.

(** X14.  After [add_tags], the taggings table associates the content with
    the id [meta.tags] gives for every requested name, and has lost none of
    the associations it had. *)
Theorem add_tags_records_taggings (tags : list string) (db : database)
    (m : Meta) (h : string) :
  tags <> [] ->
  meta m !! "md5" = Some (VStr h) ->
  exists s' rows,
    add_tags tags (db, m) = (s', Ok (Some rows))
    /\ (forall n, n ∈ tags ->
          exists i, Metadata.tags s'.2 !! n = Some i
                    /\ Tagging i h ∈ taggings s'.1)
    /\ (forall g, g ∈ taggings db -> g ∈ taggings s'.1)
    /\ (forall g, g ∈ taggings s'.1 -> g ∈ taggings db \/ tg_md5 g = h).
Proof.
  intros Hne Hmd5.
  destruct (add_tags_updates_meta_tags_aux tags db m h Hne Hmd5)
    as (db' & rows & Heq & Htaggings & Hmeta).
  eexists _, rows. split; [exact Heq|]. cbn [fst snd]. split; [|split].
  - intros n Hn. destruct (Hmeta n Hn) as (r & Hr & Hname & Hlookup).
    exists (tag_id r). split; [done|]. apply Htaggings. right.
    exists (tag_id r). split; [|done]. apply list_elem_of_fmap. eauto.
  - intros g Hg. apply Htaggings. by left.
  - intros g Hg. apply Htaggings in Hg as [? | (i & _ & ->)]; [by left | by right].
Qed.

Lemma tag_ids_of_spec (t : gmap string Z) (tags : list string) (ids : list Z) :
  tag_ids_of t tags = Ok ids ->
  (forall n, n ∈ tags -> is_Some (t !! n))
  /\ (forall i, i ∈ ids <-> exists n, n ∈ tags /\ t !! n = Some i).
Proof.
  revert ids. induction tags as [|n tags IH]; intros ids; simpl.
  - intros [= <-]. split.
    + intros n Hn. by apply elem_of_nil in Hn.
    + intros i. split; [intros Hi; by apply elem_of_nil in Hi|].
      intros (n & Hn & _). by apply elem_of_nil in Hn.
  - destruct (t !! n) as [i0|] eqn:Hn; [|done].
    destruct (tag_ids_of t tags) as [ids'|e]; [|done].
    intros [= <-]. destruct (IH ids' eq_refl) as [Hall Hids]. split.
    + intros n' Hn'. apply elem_of_cons in Hn' as [-> | Hn']; [by eexists | eauto].
    + intros i. rewrite elem_of_cons, Hids. split.
      * intros [-> | (n' & Hn' & Hi)]; [exists n | exists n'];
          (split; [|done]); [by left | by right].
      * intros (n' & Hn' & Hi). apply elem_of_cons in Hn' as [-> | Hn'].
        -- left. congruence.
        -- right. eauto.
Qed.

Lemma tag_ids_of_raise (t : gmap string Z) (tags : list string) (e : exn) :
  tag_ids_of t tags = Raise e ->
  exn_class e = KeyError /\ exists n, n ∈ tags /\ t !! n = None.
Proof.
  induction tags as [|n tags IH]; simpl; [done|].
  destruct (t !! n) as [i|] eqn:Hn.
  - destruct (tag_ids_of t tags) as [ids|e']; [done|].
    intros [= <-]. destruct (IH eq_refl) as [Hclass (n' & Hn' & Hnone)].
    split; [done|]. exists n'. split; [by right | done].
  - intros [= <-]. split; [done|]. exists n. split; [by left | done].
Qed.

(** X15.  [remove_tags] with a name that is not in [meta.tags] raises
    [KeyError] before anything else happens: no statement is sent, and the
    database and the record are as they were. *)
Theorem remove_tags_unknown_tag (tags : list string) (db : database) (m : Meta)
    (n : string) :
  n ∈ tags ->
  Metadata.tags m !! n = None ->
  exists msg, remove_tags tags (db, m) = ((db, m), Raise (Exn KeyError msg)).
Proof.
  intros Hn Hnone. destruct tags as [|t0 ts]; [by apply elem_of_nil in Hn|].
  unfold remove_tags. set (T := t0 :: ts) in *.
  destruct (tag_ids_of (Metadata.tags m) T) as [ids|[c msg]] eqn:Hids.
  - apply tag_ids_of_spec in Hids as [Hall _].
    destruct (Hall n Hn) as [i Hi]. congruence.
  - destruct (tag_ids_of_raise _ _ _ Hids) as [Hclass _]. simpl in Hclass. subst c.
    exists msg. unfold bind at 1, meta_tag_ids. cbn [snd]. by rewrite Hids.
Qed.

(** Everything the later statements need to know about a successful
    [remove_tags]. *)
Lemma remove_tags_result (tags : list string) (db : database) (m : Meta)
    (h : string) :
  tags <> [] ->
  meta m !! "md5" = Some (VStr h) ->
  (forall n, n ∈ tags -> is_Some (Metadata.tags m !! n)) ->
  exists db' (ids : list Z),
    remove_tags tags (db, m) =
      ((db', set_tags m (filter (fun kv => negb (str_in kv.1 tags))
                                (Metadata.tags m))), Ok tt)
    /\ (forall i, i ∈ ids <-> exists n, n ∈ tags /\ Metadata.tags m !! n = Some i)
    /\ tag_rows db' = tag_rows db
    /\ zipballs db' =
         map (store_tags h (filter (fun kv => negb (str_in kv.1 tags))
                                   (Metadata.tags m))) (zipballs db)
    /\ (forall g, g ∈ taggings db'
                  <-> g ∈ taggings db /\ ~ (tg_md5 g = h /\ tg_tag_id g ∈ ids)).
Proof.
  intros Hne Hmd5 Hall. destruct (tag_ids_of_ok _ _ Hall) as [ids Hids].
  pose proof (remove_tags_eq tags db m h ids Hne Hmd5 Hids) as Heq.
  cbv zeta in Heq. eexists _, ids. split; [exact Heq|].
  split; [by apply (tag_ids_of_spec _ _ _ Hids)|].
  cbn [effect record tag_rows zipballs taggings].
  split; [done|]. split; [done|].
  intros g. rewrite list_elem_of_In, filter_In, <- list_elem_of_In.
  rewrite negb_true_iff, andb_false_iff, String.eqb_neq, bool_decide_eq_false.
  destruct (decide (tg_md5 g = h)); tauto.
Qed.

(** X16.  [remove_tags] deletes from the taggings table exactly the
    associations of this content with the ids that [meta.tags] gave for the
    removed names.  The associations of other contents stay, and so does
    every row of the tags table: a tag is never deleted, even when nothing
    is tagged with it any more. *)
Theorem remove_tags_deletes_taggings_only (tags : list string) (db : database)
    (m : Meta) (h : string) :
  tags <> [] ->
  meta m !! "md5" = Some (VStr h) ->
  (forall n, n ∈ tags -> is_Some (Metadata.tags m !! n)) ->
  exists s',
    remove_tags tags (db, m) = (s', Ok tt)
    /\ tag_rows s'.1 = tag_rows db
    /\ (forall g, g ∈ taggings s'.1 <->
          g ∈ taggings db
          /\ ~ (tg_md5 g = h
                /\ exists n, n ∈ tags /\ Metadata.tags m !! n = Some (tg_tag_id g)))
    /\ (forall n, Metadata.tags s'.2 !! n =
                  if decide (n ∈ tags) then None else Metadata.tags m !! n).
Proof.
  intros Hne Hmd5 Hall.
  destruct (remove_tags_result tags db m h Hne Hmd5 Hall)
    as (db' & ids & Heq & Hids & Htags & _ & Htaggings).
  eexists. split; [exact Heq|]. cbn [fst snd set_tags Metadata.tags].
  split; [exact Htags|]. split.
  - intros g. rewrite Htaggings, Hids. tauto.
  - intros n. destruct (decide (n ∈ tags)) as [Hn | Hn].
    + apply map_lookup_filter_None. right. intros x _. simpl.
      apply str_in_iff in Hn. rewrite Hn. simpl. tauto.
    + destruct (Metadata.tags m !! n) as [i|] eqn:Hi.
      * apply map_lookup_filter_Some. split; [done|]. simpl.
        destruct (str_in n tags) eqn:Hin; [|exact I].
        by apply str_in_iff in Hin.
      * apply map_lookup_filter_None. by left.
Qed.

Lemma store_tags_stored (h : string) (t : gmap string Z) (rows : list zipball) :
  tags_stored h t rows (map (store_tags h t) rows).
Proof.
  unfold tags_stored. induction rows as [|r rows IH]; [constructor|].
  simpl. constructor; [|exact IH]. unfold store_tags.
  destruct (String.eqb_spec (zb_md5 r) h); by case_decide.
Qed.

(** X17.  Both tag operations write the tag mapping they leave in
    [meta.tags] to the [tags] column of the content's row: after either, every
    row of [zipballs] with the content's md5 holds [meta.tags], and nothing
    else in [zipballs] has changed. *)
Theorem tags_written_to_content_row (tags : list string) (db : database)
    (m : Meta) (h : string) :
  tags <> [] ->
  meta m !! "md5" = Some (VStr h) ->
  (exists s' rows,
     add_tags tags (db, m) = (s', Ok (Some rows))
     /\ tags_stored h (Metadata.tags s'.2) (zipballs db) (zipballs s'.1))
  /\ ((forall n, n ∈ tags -> is_Some (Metadata.tags m !! n)) ->
      exists s',
        remove_tags tags (db, m) = (s', Ok tt)
        /\ tags_stored h (Metadata.tags s'.2) (zipballs db) (zipballs s'.1)).
Proof.
  intros Hne Hmd5. split.
  - destruct (add_tags_result tags db m h Hne Hmd5)
      as (db' & rows & Heq & _ & _ & Hzip & _).
    eexists _, rows. split; [exact Heq|]. cbn [fst snd set_tags Metadata.tags].
    rewrite Hzip. apply store_tags_stored.
  - intros Hall.
    destruct (remove_tags_result tags db m h Hne Hmd5 Hall)
      as (db' & ids & Heq & _ & _ & Hzip & _).
    eexists. split; [exact Heq|]. cbn [fst snd set_tags Metadata.tags].
    rewrite Hzip. apply store_tags_stored.
Qed.

Lemma meta_md5_missing (s : state) :
  meta s.2 !! "md5" = None ->
  meta_md5 s = (s, Raise (Exn AttributeError "Attribute or key 'md5' not found")).
Proof. unfold meta_md5, getattr. by intros ->. Qed.

Lemma tagging_block_raises (ids : list Z) (s : state) (e : exn) :
  meta_md5 s = (s, Raise e) ->
  (let* _ := insert_taggings ids in update_zipball_tags) s = (s, Raise e).
Proof.
  intros Hmd5. destruct ids as [|i ids].
  - unfold bind at 1. cbn [insert_taggings ret].
    unfold update_zipball_tags, bind. by rewrite Hmd5.
  - unfold bind at 1. cbn [insert_taggings]. unfold bind at 1. by rewrite Hmd5.
Qed.

(** X18.  On a record without an ['md5'] entry, [add_tags] raises
    [AttributeError], but only after its first two steps: the tags have been
    created and [meta.tags] has been updated with them, while no tagging was
    recorded and no row of [zipballs] was written. *)
Theorem add_tags_without_md5 (tags : list string) (db : database) (m : Meta) :
  tags <> [] ->
  meta m !! "md5" = None ->
  exists s' msg,
    add_tags tags (db, m) = (s', Raise (Exn AttributeError msg))
    /\ (forall n, n ∈ tags -> has_tag n (tag_rows s'.1) = true)
    /\ (forall n, n ∈ tags -> is_Some (Metadata.tags s'.2 !! n))
    /\ taggings s'.1 = taggings db
    /\ zipballs s'.1 = zipballs db.
Proof.
  intros Hne Hmd5. destruct tags as [|t0 ts]; [done|]. clear Hne.
  unfold add_tags. set (T := t0 :: ts) in *.
  erewrite bind_ok; [|apply transaction_ok, executemany_run].
  unfold bind at 1, query at 1, modify at 1.
  unfold bind at 1, results at 1, gets at 1.
  unfold bind at 1, modify at 1. cbn [fst snd].
  set (db0 := run_all (map InsertTag T) (record Begin db)).
  set (db1 := record (SelectTags T) (effect (SelectTags T) (record Commit db0))).
  set (rows := List.filter (fun r => str_in (name r) T) (tag_rows db1)).
  set (m1 := set_tags m (tags_dict rows ∪ Metadata.tags m)).
  unfold bind at 1, transaction. cbn [fst snd].
  rewrite (tagging_block_raises (map tag_id rows) (record Begin db1, m1) _
             (meta_md5_missing (record Begin db1, m1) Hmd5)).
  eexists _, _. split; [reflexivity|]. cbn [fst snd record tag_rows taggings zipballs].
  destruct (insert_tags_frame T (record Begin db)) as [Hzip Htag]. fold db0 in Hzip, Htag.
  assert (forall n, n ∈ T -> has_tag n (tag_rows db0) = true) as Hrows.
  { intros n Hn. apply insert_tags_ensures. by left. }
  split; [exact Hrows|]. split; [|split].
  - intros n Hn. unfold m1. cbn [set_tags Metadata.tags]. rewrite lookup_union.
    assert (is_Some (tags_dict rows !! n)) as [i ->].
    { rewrite tags_dict_dom. unfold rows. rewrite has_tag_selected. split; [done|].
      by apply Hrows. }
    by destruct (Metadata.tags m !! n).
  - unfold db1. cbn [record effect taggings]. exact Htag.
  - unfold db1. cbn [record effect zipballs]. exact Hzip.
Qed.

End TagTheorems.

(** ** The archive index: view counts *)

Section ViewProperties.

Import Metadata EmbeddedArchive.

(** X19.  [add_view] runs its update before it checks the row count.  It
    returns (the count 1) exactly when one row has the md5 and raises
    [AssertionError] otherwise, and in every case each row with the md5 has
    one view more and nothing else has changed: with several matching rows
    the views are counted although the call fails. *)
Theorem add_view_counts_before_checking (md5 : string) (db : database) :
  let out := add_view md5 (db, tt) in
  Forall2 (fun r r' =>
             zb_md5 r' = zb_md5 r /\ zb_tags r' = zb_tags r
             /\ zb_views r' = zb_views r + (if decide (zb_md5 r = md5) then 1 else 0))
          (zipballs db) (zipballs out.1.1)
  /\ tag_rows out.1.1 = tag_rows db
  /\ taggings out.1.1 = taggings db
  /\ executed out.1.1 = (executed db ++ [UpdateViews md5])%list
  /\ (out.2 = Ok 1 <-> count_md5 md5 (zipballs db) = 1)
  /\ (count_md5 md5 (zipballs db) <> 1 ->
      out.2 = Raise (Exn AssertionError "Updated more than one row")).
Proof.
  intros out. unfold out, add_view, bind, query, modify, gets. cbn [fst snd].
  cbn [effect record rowcount].
  split; [|split; [|split; [|split; [|split]]]].
  - destruct (count_md5 md5 (zipballs db) =? 1); cbn [fst snd zipballs].
    all: induction (zipballs db) as [|r rows IH]; simpl; constructor; try exact IH.
    all: unfold bump_views; destruct (String.eqb_spec (zb_md5 r) md5);
      case_decide; simpl; try done; repeat split; lia.
  - by destruct (count_md5 md5 (zipballs db) =? 1).
  - by destruct (count_md5 md5 (zipballs db) =? 1).
  - by destruct (count_md5 md5 (zipballs db) =? 1).
  - destruct (Z.eqb_spec (count_md5 md5 (zipballs db)) 1) as [Heq | Hne];
      cbn [snd ret raise].
    + rewrite Heq. done.
    + split; [intros [=]|]; done.
  - intros Hne. by destruct (Z.eqb_spec (count_md5 md5 (zipballs db)) 1).
Qed.

End ViewProperties.

(** ** The metadata normaliser: lookups, defaults, cleaning, aliases *)

Section NormalizerMore.

Import Metadata.

Variable dateutil_parse : value -> result datetime.

Local Abbreviation STANDARD_FIELDS := (STANDARD_FIELDS dateutil_parse).
Local Abbreviation REQUIRED_KEYS := (REQUIRED_KEYS dateutil_parse).
Local Abbreviation get_default_value := (get_default_value dateutil_parse).
Local Abbreviation get_aliases_for := (get_aliases_for dateutil_parse).
Local Abbreviation is_required := (is_required dateutil_parse).
Local Abbreviation replace_aliases := (replace_aliases dateutil_parse).
Local Abbreviation add_missing_keys_from := (add_missing_keys_from dateutil_parse).
Local Abbreviation add_missing_keys := (add_missing_keys dateutil_parse).
Local Abbreviation clean_keys := (clean_keys dateutil_parse).

(** X20.  The three lookups in the field specification know the standard
    fields only: for any other key, the automatic fields 'md5', 'size' and
    'updated' included, [get_default_value], [get_aliases_for] and
    [is_required] raise [KeyError]. *)
Theorem spec_lookups_reject_unknown_keys (key : string) (meta : dict) :
  key ∉ STANDARD_FIELDS.*1 ->
  (exists msg, get_default_value key meta = Raise (Exn KeyError msg))
  /\ (exists msg, get_aliases_for key = Raise (Exn KeyError msg))
  /\ (exists msg, is_required key = Raise (Exn KeyError msg)).
Proof.
  intros Hkey.
  assert (field_lookup key STANDARD_FIELDS = None) as Hnone.
  { apply eq_None_not_Some. by rewrite <- field_lookup_standard. }
  unfold Metadata.get_default_value, Metadata.get_aliases_for,
    Metadata.is_required. rewrite Hnone. repeat split; by eexists.
Qed.

Lemma add_missing_keys_from_keeps (keys : list string) (m m' : dict)
    (r : result unit) :
  add_missing_keys_from keys m = (m', r) ->
  forall k v, m !! k = Some v -> m' !! k = Some v.
Proof.
  revert m. induction keys as [|key keys IH]; intros m; simpl.
  - by intros [= <- <-].
  - destruct (m !! key) as [v0|] eqn:Hkey; [by apply IH|].
    destruct (get_default_value key m) as [d|e]; [|by intros [= <- <-]].
    intros Hrun k v Hk. apply (IH _ Hrun).
    rewrite lookup_insert_ne; [done|]. congruence.
Qed.

Lemma add_missing_keys_from_success (keys : list string) (m m' : dict) :
  add_missing_keys_from keys m = (m', Ok tt) ->
  (forall k, k ∈ keys -> is_Some (m' !! k))
  /\ (forall k, is_Some (m' !! k) -> is_Some (m !! k) \/ k ∈ keys).
Proof.
  revert m. induction keys as [|key keys IH]; intros m; simpl.
  - intros [= <-]. split; [|by left]. intros k Hk. by apply elem_of_nil in Hk.
  - destruct (m !! key) as [v0|] eqn:Hkey.
    + intros Hrun. destruct (IH _ Hrun) as [Hall Hdom]. split.
      * intros k Hk. apply elem_of_cons in Hk as [-> | Hk]; [|eauto].
        exists v0. by apply (add_missing_keys_from_keeps _ _ _ _ Hrun).
      * intros k Hk. destruct (Hdom k Hk); [by left | right; by right].
    + destruct (get_default_value key m) as [d|e]; [|done].
      intros Hrun. destruct (IH _ Hrun) as [Hall Hdom]. split.
      * intros k Hk. apply elem_of_cons in Hk as [-> | Hk]; [|eauto].
        exists d. apply (add_missing_keys_from_keeps _ _ _ _ Hrun), lookup_insert_eq.
      * intros k Hk. destruct (Hdom k Hk) as [Hin | Hin]; [|right; by right].
        destruct (decide (k = key)) as [-> | Hne]; [right; by left|].
        left. by rewrite lookup_insert_ne in Hin.
Qed.

Lemma add_missing_keys_from_present (keys : list string) (m : dict) :
  (forall k, k ∈ keys -> is_Some (m !! k)) ->
  add_missing_keys_from keys m = (m, Ok tt).
Proof.
  induction keys as [|key keys IH]; intros Hall; simpl; [done|].
  destruct (Hall key) as [v ->]; [by left|].
  apply IH. intros k Hk. apply Hall. by right.
Qed.

(** X21.  [add_missing_keys] only adds: every entry of the record, under a
    standard key or not, is still there with its value when the call ends,
    whether it returns or a default raises half way. *)
Theorem add_missing_keys_keeps_entries (m : dict) (k : string) (v : value) :
  m !! k = Some v -> (add_missing_keys m).1 !! k = Some v.
Proof.
  intros Hk. rewrite add_missing_keys_eq.
  destruct (add_missing_keys_from STANDARD_FIELDS.*1 m) as [m' r] eqn:Hrun.
  by apply (add_missing_keys_from_keeps _ _ _ _ Hrun).
Qed.

(** X22.  When [add_missing_keys] returns, the record has every standard
    field, its keys are the keys it had together with the standard fields,
    and running [add_missing_keys] again returns without changing it. *)
Theorem add_missing_keys_completes (m m' : dict) :
  add_missing_keys m = (m', Ok tt) ->
  (forall k, k ∈ STANDARD_FIELDS.*1 -> is_Some (m' !! k))
  /\ (forall k, is_Some (m' !! k) <-> is_Some (m !! k) \/ k ∈ STANDARD_FIELDS.*1)
  /\ add_missing_keys m' = (m', Ok tt).
Proof.
  rewrite !add_missing_keys_eq. intros Hrun.
  destruct (add_missing_keys_from_success _ _ _ Hrun) as [Hall Hdom].
  split; [exact Hall|]. split.
  - intros k. split; [apply Hdom|]. intros [[v Hv] | Hin]; [|by apply Hall].
    exists v. by apply (add_missing_keys_from_keeps _ _ _ _ Hrun).
  - by apply add_missing_keys_from_present.
Qed.

(** X23.  [clean_keys] keeps exactly the entries under standard keys, with
    their values.  Keys the specification marks as automatic are not
    standard: a record's 'md5', 'size' and 'updated' are removed with the
    unknown keys.  Cleaning twice is cleaning once. *)
Theorem clean_keys_keeps_standard_only (m : dict) :
  (forall k v, clean_keys m !! k = Some v <->
               k ∈ STANDARD_FIELDS.*1 /\ m !! k = Some v)
  /\ clean_keys m !! "md5" = None
  /\ clean_keys m !! "size" = None
  /\ clean_keys m !! "updated" = None
  /\ clean_keys (clean_keys m) = clean_keys m.
Proof.
  assert (forall k, k ∉ STANDARD_FIELDS.*1 -> clean_keys m !! k = None) as Hout.
  { intros k Hk. rewrite clean_keys_lookup. by case_decide. }
  assert (forall k, In k ["md5"; "size"; "updated"] -> k ∉ STANDARD_FIELDS.*1)
    as Hauto.
  { intros k Hk Hin. rewrite standard_keys in Hin. apply list_elem_of_In in Hin.
    simpl in Hk, Hin. intuition (subst; discriminate). }
  split; [|split; [|split; [|split]]].
  - intros k v. rewrite clean_keys_lookup. case_decide; [tauto|].
    split; [done | tauto].
  - apply Hout, Hauto. simpl. tauto.
  - apply Hout, Hauto. simpl. tauto.
  - apply Hout, Hauto. simpl. tauto.
  - apply map_eq. intros k. rewrite !clean_keys_lookup. by case_decide.
Qed.

(** The entries of a record after [replace_aliases]. *)
Lemma replace_aliases_lookup (d : dict) (k : string) :
  replace_aliases d !! k =
    if decide (k = "entry_point")
    then match d !! "entry_point" with
         | Some v => Some v
         | None => d !! "index"
         end
    else if decide (k = "index")
    then match d !! "entry_point" with
         | Some _ => d !! "index"
         | None => None
         end
    else if decide (k = "publisher")
    then match d !! "publisher" with
         | Some v => Some v
         | None => d !! "partner"
         end
    else if decide (k = "partner")
    then match d !! "publisher" with
         | Some _ => d !! "partner"
         | None => None
         end
    else d !! k.
Proof.
  rewrite replace_aliases_two_steps.
  rewrite (replace_aliases_step_lookup _ _ "entry_point" "index") by done.
  rewrite !(replace_aliases_step_lookup _ _ "publisher" "partner") by done.
  repeat case_decide; subst; done.
Qed.

(** X24.  [replace_aliases] does its work in one pass: applying it to its
    own result changes nothing.  It never adds an entry to a record that
    has none of the keys involved, and a required key is there after it
    exactly when it was there before. *)
Theorem replace_aliases_idempotent (d : dict) :
  replace_aliases (replace_aliases d) = replace_aliases d
  /\ (forall k, k ∈ REQUIRED_KEYS -> replace_aliases d !! k = d !! k)
  /\ (forall k, is_Some (replace_aliases d !! k) ->
        is_Some (d !! k)
        \/ (k = "publisher" /\ is_Some (d !! "partner"))
        \/ (k = "entry_point" /\ is_Some (d !! "index"))).
Proof.
  split; [|split].
  - apply map_eq. intros k. rewrite (replace_aliases_lookup (replace_aliases d)).
    rewrite !replace_aliases_lookup. simpl.
    destruct (d !! "entry_point"), (d !! "index"), (d !! "publisher"),
      (d !! "partner"); repeat case_decide; subst; done.
  - intros k Hk. rewrite required_keys in Hk. rewrite replace_aliases_lookup.
    elem_cases Hk; reflexivity.
  - intros k. rewrite replace_aliases_lookup.
    repeat case_decide; subst;
      destruct (d !! "entry_point"), (d !! "index"), (d !! "publisher"),
        (d !! "partner"); intros [x Hx]; try discriminate Hx; eauto.
Qed.

End NormalizerMore.

(** ** The metadata normaliser: how [convert_json] fails *)

Section ConvertJsonMore.

Import Metadata.

Variable dateutil_parse : value -> result datetime.
Variable decode_utf8 : list byte -> result string.
Variable json_loads : string -> result dict.

Local Abbreviation REQUIRED_KEYS := (REQUIRED_KEYS dateutil_parse).
Local Abbreviation replace_aliases := (replace_aliases dateutil_parse).
Local Abbreviation convert_json :=
  (convert_json decode_utf8 json_loads dateutil_parse).

Lemma replace_aliases_required (d : dict) (k : string) :
  k ∈ REQUIRED_KEYS -> replace_aliases d !! k = d !! k.
Proof.
  intros Hk. rewrite required_keys in Hk. rewrite replace_aliases_lookup.
  elem_cases Hk; reflexivity.
Qed.

(** X25.  Aliases play no part in the check for mandatory keys: for a JSON
    object, [convert_json] raises [FormatError] exactly when the object as
    parsed lacks one of the required keys. *)
Theorem convert_json_format_error_iff (b : list byte) (text : string) (d : dict) :
  decode_utf8 b = Ok text ->
  json_loads text = Ok d ->
  (exists msg, convert_json b = Raise (Exn FormatError msg))
  <-> exists key, key ∈ REQUIRED_KEYS /\ d !! key = None.
Proof.
  intros Hdecode Hloads.
  destruct (convert_json_object dateutil_parse decode_utf8 json_loads b text d
              Hdecode Hloads)
    as [(k & Hk & Hnone & Hraise) | [Hall Hrest]].
  - split; [|intros _; by eexists].
    intros _. exists k. split; [done|]. by rewrite <- replace_aliases_required.
  - split.
    + intros [msg Hmsg].
      destruct Hrest as [(r & Hr & _) | (m & e & _ & Hraise)]; congruence.
    + intros (key & Hkey & Hnone). destruct (Hall key Hkey) as [v Hv].
      rewrite replace_aliases_required in Hv by done. congruence.
Qed.


End ConvertJsonMore.

(** ** The further properties at the samples *)

Section MoreExamples.

Import Metadata EmbeddedArchive Samples.

(** X11 at the sample archive: 'a' has a row, 'b' gets one. *)
Lemma add_tags_registers_tags_witness :
  ["a"; "b"] <> []
  /\ meta content !! "md5" = Some (VStr "abc")
  /\ exists s' rows new,
       add_tags ["a"; "b"] (archive, content) = (s', Ok (Some rows))
       /\ tag_rows s'.1 = (tag_rows archive ++ new)%list
       /\ Forall (fun r => name r ∈ ["a"; "b"]
                           /\ has_tag (name r) (tag_rows archive) = false) new
       /\ (forall n, n ∈ ["a"; "b"] -> has_tag n (tag_rows s'.1) = true)
       /\ (forall r, r ∈ rows <-> r ∈ tag_rows s'.1 /\ name r ∈ ["a"; "b"]).
Proof.
  split; [discriminate|]. split; [reflexivity|].
  apply (add_tags_registers_tags ["a"; "b"] archive content "abc");
    [discriminate | reflexivity].
Defined.

Lemma archive_names_unique : NoDup (map name (tag_rows archive)).
Proof. apply NoDup_singleton. Defined.

Lemma archive_ids_unique : NoDup (map tag_id (tag_rows archive)).
Proof. apply NoDup_singleton. Defined.

(** X12 at the sample archive. *)
Lemma add_tags_keeps_tags_unique_witness :
  ["a"; "b"] <> []
  /\ meta content !! "md5" = Some (VStr "abc")
  /\ NoDup (map name (tag_rows archive))
  /\ NoDup (map tag_id (tag_rows archive))
  /\ exists s' rows,
       add_tags ["a"; "b"] (archive, content) = (s', Ok (Some rows))
       /\ NoDup (map name (tag_rows s'.1))
       /\ NoDup (map tag_id (tag_rows s'.1)).
Proof.
  split; [discriminate|]. split; [reflexivity|].
  split; [exact archive_names_unique|]. split; [exact archive_ids_unique|].
  apply (add_tags_keeps_tags_unique ["a"; "b"] archive content "abc");
    [discriminate | reflexivity | exact archive_names_unique
    | exact archive_ids_unique].
Defined.

(** X13 at the sample archive. *)
Lemma add_tags_updates_meta_tags_witness :
  ["a"; "b"] <> []
  /\ meta content !! "md5" = Some (VStr "abc")
  /\ exists s' rows,
       add_tags ["a"; "b"] (archive, content) = (s', Ok (Some rows))
       /\ (forall n, n ∈ ["a"; "b"] ->
             exists r, r ∈ tag_rows s'.1 /\ name r = n
                       /\ Metadata.tags s'.2 !! n = Some (tag_id r))
       /\ (forall n, n ∉ ["a"; "b"] ->
             Metadata.tags s'.2 !! n = Metadata.tags content !! n)
       /\ meta s'.2 = meta content.
Proof.
  split; [discriminate|]. split; [reflexivity|].
  apply (add_tags_updates_meta_tags ["a"; "b"] archive content "abc");
    [discriminate | reflexivity].
Defined.

(** X14 at the sample archive. *)
Lemma add_tags_records_taggings_witness :
  ["a"; "b"] <> []
  /\ meta content !! "md5" = Some (VStr "abc")
  /\ exists s' rows,
       add_tags ["a"; "b"] (archive, content) = (s', Ok (Some rows))
       /\ (forall n, n ∈ ["a"; "b"] ->
             exists i, Metadata.tags s'.2 !! n = Some i
                       /\ Tagging i "abc" ∈ taggings s'.1)
       /\ (forall g, g ∈ taggings archive -> g ∈ taggings s'.1)
       /\ (forall g, g ∈ taggings s'.1 -> g ∈ taggings archive \/ tg_md5 g = "abc").
Proof.
  split; [discriminate|]. split; [reflexivity|].
  apply (add_tags_records_taggings ["a"; "b"] archive content "abc");
    [discriminate | reflexivity].
Defined.

(** X15 at an untagged record. *)
Lemma remove_tags_unknown_tag_witness :
  "a" ∈ ["b"; "a"]
  /\ Metadata.tags content !! "a" = None
  /\ exists msg, remove_tags ["b"; "a"] (archive, content)
                 = ((archive, content), Raise (Exn KeyError msg)).
Proof.
  split; [elem_lit|]. split; [reflexivity|].
  apply (remove_tags_unknown_tag ["b"; "a"] archive content "a");
    [elem_lit | reflexivity].
Defined.

Lemma tagged_has_a (n : string) :
  n ∈ ["a"] -> is_Some (Metadata.tags tagged !! n).
Proof. intros Hn. elem_cases Hn. vm_compute. eexists. reflexivity. Defined.

(** X16 at the record tagged 'a'. *)
Lemma remove_tags_deletes_taggings_only_witness :
  ["a"] <> []
  /\ meta tagged !! "md5" = Some (VStr "abc")
  /\ (forall n, n ∈ ["a"] -> is_Some (Metadata.tags tagged !! n))
  /\ exists s',
       remove_tags ["a"] (archive, tagged) = (s', Ok tt)
       /\ tag_rows s'.1 = tag_rows archive
       /\ (forall g, g ∈ taggings s'.1 <->
             g ∈ taggings archive
             /\ ~ (tg_md5 g = "abc"
                   /\ exists n, n ∈ ["a"]
                                /\ Metadata.tags tagged !! n = Some (tg_tag_id g)))
       /\ (forall n, Metadata.tags s'.2 !! n =
                     if decide (n ∈ ["a"]) then None else Metadata.tags tagged !! n).
Proof.
  split; [discriminate|]. split; [reflexivity|]. split; [exact tagged_has_a|].
  apply (remove_tags_deletes_taggings_only ["a"] archive tagged "abc");
    [discriminate | reflexivity | exact tagged_has_a].
Defined.

(** X17 at the record tagged 'a'. *)
Lemma tags_written_to_content_row_witness :
  ["a"] <> []
  /\ meta tagged !! "md5" = Some (VStr "abc")
  /\ (exists s' rows,
        add_tags ["a"] (archive, tagged) = (s', Ok (Some rows))
        /\ tags_stored "abc" (Metadata.tags s'.2) (zipballs archive) (zipballs s'.1))
  /\ exists s',
       remove_tags ["a"] (archive, tagged) = (s', Ok tt)
       /\ tags_stored "abc" (Metadata.tags s'.2) (zipballs archive) (zipballs s'.1).
Proof.
  split; [discriminate|]. split; [reflexivity|].
  destruct (tags_written_to_content_row ["a"] archive tagged "abc")
    as [Hadd Hremove]; [discriminate | reflexivity |].
  split; [exact Hadd | exact (Hremove tagged_has_a)].
Defined.

(** X18 at a record without md5. *)
Lemma add_tags_without_md5_witness :
  ["b"] <> []
  /\ meta anonymous !! "md5" = None
  /\ exists s' msg,
       add_tags ["b"] (archive, anonymous) = (s', Raise (Exn AttributeError msg))
       /\ (forall n, n ∈ ["b"] -> has_tag n (tag_rows s'.1) = true)
       /\ (forall n, n ∈ ["b"] -> is_Some (Metadata.tags s'.2 !! n))
       /\ taggings s'.1 = taggings archive
       /\ zipballs s'.1 = zipballs archive.
Proof.
  split; [discriminate|]. split; [reflexivity|].
  apply (add_tags_without_md5 ["b"] archive anonymous);
    [discriminate | reflexivity].
Defined.

(** X20 at the automatic field 'md5'. *)
Lemma spec_lookups_reject_unknown_keys_witness :
  ("md5" ∉ (STANDARD_FIELDS dateutil_parse).*1)
  /\ (exists msg, get_default_value dateutil_parse "md5" ∅ = Raise (Exn KeyError msg))
  /\ (exists msg, get_aliases_for dateutil_parse "md5" = Raise (Exn KeyError msg))
  /\ (exists msg, is_required dateutil_parse "md5" = Raise (Exn KeyError msg)).
Proof.
  assert ("md5" ∉ (STANDARD_FIELDS dateutil_parse).*1) as Hmd5.
  { intros H. apply list_elem_of_In in H. vm_compute in H. intuition discriminate. }
  split; [exact Hmd5|].
  exact (spec_lookups_reject_unknown_keys dateutil_parse "md5" ∅ Hmd5).
Defined.

(** X21 at a record with an unknown key. *)
Lemma add_missing_keys_keeps_entries_witness :
  dict_of with_extra !! "foo" = Some (VStr "bar")
  /\ (add_missing_keys dateutil_parse (dict_of with_extra)).1 !! "foo"
     = Some (VStr "bar").
Proof.
  split; [reflexivity|].
  exact (add_missing_keys_keeps_entries dateutil_parse (dict_of with_extra)
           "foo" (VStr "bar") eq_refl).
Defined.

(** X22 at a record with the required fields. *)
Lemma add_missing_keys_completes_witness :
  add_missing_keys dateutil_parse (dict_of complete) = (converted complete, Ok tt)
  /\ (forall k, k ∈ (STANDARD_FIELDS dateutil_parse).*1 ->
                is_Some (converted complete !! k))
  /\ add_missing_keys dateutil_parse (converted complete)
     = (converted complete, Ok tt).
Proof.
  split; [reflexivity|].
  destruct (add_missing_keys_completes dateutil_parse (dict_of complete)
              (converted complete) eq_refl) as (Hall & _ & Hagain).
  split; [exact Hall | exact Hagain].
Defined.

(** X25 at a document without a title. *)
Lemma convert_json_format_error_iff_witness :
  decode_utf8 (bytes_of untitled) = Ok (json_object untitled)
  /\ json_loads (json_object untitled) = Ok (dict_of untitled)
  /\ exists key, key ∈ REQUIRED_KEYS dateutil_parse
                 /\ dict_of untitled !! key = None.
Proof.
  split; [reflexivity|]. split; [reflexivity|].
  apply (convert_json_format_error_iff dateutil_parse decode_utf8 json_loads
           (bytes_of untitled) (json_object untitled) (dict_of untitled)
           eq_refl eq_refl).
  eexists. reflexivity.
Defined.




End MoreExamples.
